(** * Microplate: a shallow embedding of [microplate/microplate.py]

    The development models the [Microplate] dataclass: the generation of the
    well grid in [__post_init__], the three-way dispatch of [add_samples]
    and the text produced by [print_matrix].  The older single-file variant
    [microplate.py] shares the grid generation and [print_matrix] verbatim;
    its own [__post_init__] is modelled in [Module Legacy].

    Modelling choices.
    - [rows] and [cols] are natural numbers: the model covers plates with
      non-negative dimensions.
    - A Python [str] is the list of its code points, so that [chr] is
      faithful beyond ASCII; [of_string] embeds string literals.
    - A [sample_id] cell is [None], NaN or a string; dictionary values are
      strings.  A column of a caller's data frame has dtype object (cells
      that are [None], NaN or strings), float64 (at least one cell, all of
      them NaN) or str (strings, NaN where one is missing); pandas decides
      the dtype when the caller builds the frame, and what it decides for a
      Python list depends on its version, so the dtype is part of the input.
    - [self.df] is the list of its rows in index order.  The pandas calls
      are modelled by their effect on these rows: [isin], [loc], [map],
      [merge(how='left')], [fillna], [unique] and numpy's [reshape] each
      have a definition of their own below.
    - A method returns what it printed and either a value or the exception
      it raised; a method that mutates [self] also returns the object
      afterwards.
    - Standard output is a UTF-8 text stream with the default strict error
      handling: [print] raises [UnicodeEncodeError] on a string that holds a
      lone surrogate and writes nothing of it. *)

From Stdlib Require Import Ascii String.
From stdpp Require Import gmap strings list pretty.

(** ** Python values *)

(** A Python [str] is a sequence of Unicode code points. *)
Abbreviation pystr := (list N).

Fixpoint of_string (s : string) : pystr :=
  match s with
  | EmptyString => []
  | String a s' => N_of_ascii a :: of_string s'
  end.

Arguments of_string s%_string.

Inductive exn :=
  | ValueError (msg : string)
  | KeyError (msg : string)
  | UnicodeEncodeError (msg : string).

Inductive result (A : Type) :=
  | Ok (a : A)
  | Raise (e : exn).
Arguments Ok {A} a.
Arguments Raise {A} e.
Arguments ValueError msg%_string.
Arguments KeyError msg%_string.
Arguments UnicodeEncodeError msg%_string.

Global Instance result_ret : MRet result := @Ok.
Global Instance result_bind : MBind result := λ A B f m,
  match m with
  | Ok a => f a
  | Raise e => Raise e
  end.

(** [for x in xs: body], threading the loop state and stopping at the first
    exception. *)
Fixpoint for_each {A S : Type} (xs : list A) (body : A → S → result S) (s : S)
    : result S :=
  match xs with
  | [] => Ok s
  | x :: xs' => s' ← body x s; for_each xs' body s'
  end.

(** [chr(i)]: code points stop at 0x10FFFF. *)
Definition chr (i : N) : result N :=
  if (i <? 1114112)%N then Ok i
  else Raise (ValueError "chr() arg not in range(0x110000)").

(** [str(n)] for a non-negative [int]. *)
Definition str_int (n : nat) : pystr := of_string (pretty n).

(** [len(s)] *)
Definition len (s : pystr) : nat := length s.

(** [sep.join(parts)] *)
Fixpoint join (sep : pystr) (parts : list pystr) : pystr :=
  match parts with
  | [] => []
  | [p] => p
  | p :: ps => p ++ sep ++ join sep ps
  end.

(** The code points UTF-8 cannot encode: the surrogates D800..DFFF. *)
Definition is_surrogate (c : N) : bool := (55296 <=? c)%N && (c <=? 57343)%N.

Definition encodable (s : pystr) : bool :=
  forallb (λ c, negb (is_surrogate c)) s.

(** [print(line)], given the lines already written, on a standard output
    that encodes as UTF-8: a line with a surrogate raises, and nothing of it
    is written. *)
Definition py_print (line : pystr) (out : list pystr)
    : list pystr * result unit :=
  if encodable line then (out ++ [line], Ok tt)
  else (out, Raise (UnicodeEncodeError "surrogates not allowed")).

(** The format specification [^10]: centre in a field of at least [width]
    characters; the odd padding character goes to the right. *)
Definition center (width : nat) (s : pystr) : pystr :=
  let pad := width - len s in
  replicate (pad / 2) 32%N ++ s ++ replicate (pad - pad / 2) 32%N.

(** ** The data frame *)

(** A cell of the [sample_id] column: [None], a float NaN, or a string. *)
Inductive cell :=
  | PyNone
  | NaN
  | Str (s : pystr).

Global Instance cell_eq_dec : EqDecision cell.
Proof. solve_decision. Defined.

(** [pd.isna] *)
Definition isna (x : cell) : bool :=
  match x with
  | PyNone | NaN => true
  | Str _ => false
  end.

(** One row of [self.df]. *)
Record WellRecord := {
  rec_plate_name : option pystr;
  rec_plate_id : option pystr;
  well_index : pystr;
  row : pystr;
  column : nat;
  sample_id : cell
}.

Global Instance WellRecord_eq_dec : EqDecision WellRecord.
Proof. solve_decision. Defined.

Definition set_sample_id (v : cell) (w : WellRecord) : WellRecord :=
  {| rec_plate_name := rec_plate_name w;
     rec_plate_id := rec_plate_id w;
     well_index := well_index w;
     row := row w;
     column := column w;
     sample_id := v |}.

(** [self.df]: the rows in index order; the index is the default
    [RangeIndex], so a row's label is its position. *)
Abbreviation DataFrame := (list WellRecord).

(** A column of a data frame handed in by the caller, by its dtype: object
    (strings, [None] and NaN in any mix), float64 (what pandas makes of a
    column with nothing but missing values: [n] times NaN, [n] at least one)
    or str (the dtype pandas 3 gives a column of strings: strings, and NaN
    where one is missing). *)
Inductive Column :=
  | ObjectCol (values : list cell)
  | FloatCol (n : positive)
  | StrCol (values : list (option pystr)).

(** The cells a column holds. *)
Definition cells (c : Column) : list cell :=
  match c with
  | ObjectCol l => l
  | FloatCol n => replicate (Pos.to_nat n) NaN
  | StrCol l => (λ o, match o with Some s => Str s | None => NaN end) <$> l
  end.

(** A data frame handed in by the caller: column name to column. *)
Abbreviation Table := (gmap pystr Column).

(** What a caller can pass that is neither [None], a [dict] nor a
    [DataFrame]. *)
Inductive other :=
  | OInt (z : Z)
  | OStr (s : pystr)
  | OList (l : list pystr).

(** The [sample_ids] argument, by its run-time type. *)
Inductive source :=
  | SrcNone
  | SrcDict (d : gmap pystr pystr)
  | SrcFrame (t : Table)
  | SrcOther (v : other).

Record Microplate := {
  rows : nat;
  cols : nat;
  plate_name : option pystr;
  plate_id : option pystr;
  sample_ids : source;
  df : DataFrame
}.

Definition set_df (d : DataFrame) (self : Microplate) : Microplate :=
  {| rows := rows self;
     cols := cols self;
     plate_name := plate_name self;
     plate_id := plate_id self;
     sample_ids := sample_ids self;
     df := d |}.

(** The effect of a method call: the object afterwards, the lines written to
    standard output, and whether the call returned or raised. *)
Record run (A : Type) := Run {
  self_after : Microplate;
  stdout : list pystr;
  outcome : result A
}.
Arguments Run {A} _ _ _.
Arguments self_after {A} _.
Arguments stdout {A} _.
Arguments outcome {A} _.

(** ** [__post_init__]: the well grid *)

(** The three lists the generation loops append to. *)
Record grid_lists := {
  well_indexes : list pystr;
  grid_rows : list pystr;
  grid_cols : list nat
}.

Definition grid_empty : grid_lists :=
  {| well_indexes := []; grid_rows := []; grid_cols := [] |}.

(** The body of the inner loop. *)
Definition grid_step (col row : nat) (g : grid_lists) : result grid_lists :=
  row_letter ← chr (65 + N.of_nat row);
  Ok {| well_indexes := well_indexes g ++ [row_letter :: str_int col];
        grid_rows := grid_rows g ++ [[row_letter]];
        grid_cols := grid_cols g ++ [col] |}.

(** [for col in range(1, cols + 1): for row in range(rows): ...] *)
Definition well_grid (rows cols : nat) : result grid_lists :=
  for_each (seq 1 cols)
    (λ col g, for_each (seq 0 rows) (grid_step col) g) grid_empty.

(** [pd.DataFrame({...})]: the columns must have one length. *)
Definition base_frame (names ids : list (option pystr)) (g : grid_lists)
    : result DataFrame :=
  let n := length (well_indexes g) in
  if bool_decide (length names = n ∧ length ids = n ∧
                  length (grid_rows g) = n ∧ length (grid_cols g) = n)
  then Ok (zip_with (λ '(pn, pid) '(wi, r, c),
             {| rec_plate_name := pn; rec_plate_id := pid; well_index := wi;
                row := r; column := c; sample_id := PyNone |})
             (zip names ids)
             (zip (zip (well_indexes g) (grid_rows g)) (grid_cols g)))
  else Raise (ValueError "All arrays must be of the same length").

(** ** [add_samples] *)

(** [self.df['well_index'].isin(sample_ids.keys())] *)
Definition isin (d : gmap pystr pystr) (col : DataFrame) : list bool :=
  (λ w, bool_decide (well_index w ∈ dom d)) <$> col.

(** [self.df.loc[mask, 'well_index']]: the selected labels with their
    values. *)
Definition loc_get (mask : list bool) (col : DataFrame)
    : list (nat * pystr) :=
  omap (λ '(i, (b, w)), if b : bool then Some (i, well_index w) else None)
       (imap pair (zip mask col)).

(** [Series.map(dict)]: a key the dictionary lacks maps to NaN. *)
Definition series_map (d : gmap pystr pystr) (s : list (nat * pystr))
    : list (nat * cell) :=
  (λ '(i, k), (i, match d !! k with Some v => Str v | None => NaN end)) <$> s.

(** The value a series holds at a label. *)
Fixpoint series_at (s : list (nat * cell)) (i : nat) : option cell :=
  match s with
  | [] => None
  | (j, v) :: s' => if decide (j = i) then Some v else series_at s' i
  end.

(** [self.df.loc[mask, 'sample_id'] = rhs]: the assignment aligns on the
    index; a selected label the right-hand side lacks gets NaN. *)
Definition loc_set (mask : list bool) (rhs : list (nat * cell))
    (col : DataFrame) : DataFrame :=
  imap (λ i '(b, w),
          if b : bool then set_sample_id (default NaN (series_at rhs i)) w
          else w)
       (zip mask col).

(** ['name' in sample_ids.columns] *)
Definition has_column (name : string) (t : Table) : bool :=
  bool_decide (is_Some (t !! of_string name)).

Arguments has_column name%_string t.

(** [sample_ids[['well_index', 'sample_id']]], row by row. *)
Definition project (t : Table) : list (cell * cell) :=
  zip (default [] (cells <$> t !! of_string "well_index"))
      (default [] (cells <$> t !! of_string "sample_id")).

(** The key check of [pd.merge]: the plate's well indexes are strings, and
    merging them with a float64 key column is refused, unless one of the two
    frames has no row. *)
Definition key_mismatch (left : DataFrame) (t : Table) : bool :=
  match t !! of_string "well_index" with
  | Some (FloatCol _) => negb (bool_decide (left = []))
  | _ => false
  end.

(** The [ValueError] of that check.  Its text names the two dtypes and the
    key, in words that vary with the pandas version; it is abridged here. *)
Definition merge_error : exn :=
  ValueError "You are trying to merge on object and float64 columns".

(** Whether the [sample_id] column of the caller's frame has dtype str. *)
Definition str_samples (t : Table) : bool :=
  match t !! of_string "sample_id" with
  | Some (StrCol _) => true
  | _ => false
  end.

(** The rows of the right frame whose key equals a well index. *)
Definition matches (right : list (cell * cell)) (w : WellRecord)
    : list (cell * cell) :=
  filter (λ r, r.1 = Str (well_index w)) right.

(** [pd.merge(left, right, on='well_index', how='left',
    suffixes=('', '_new'))]: every left row, in order, once per matching
    right row, or once with NaN when nothing matches.  The second component
    is the [sample_id_new] column. *)
Definition merge_left (left : DataFrame) (right : list (cell * cell))
    : list (WellRecord * cell) :=
  w ← left;
  match matches right w with
  | [] => [(w, NaN)]
  | ms => (λ r, (w, r.2)) <$> ms
  end.

(** A value as a column of dtype str ([str] true) or of another dtype
    stores it: dtype str has NaN for every missing value. *)
Definition as_dtype (str : bool) (v : cell) : cell :=
  if str && isna v then NaN else v.

(** [new.fillna(old)] at one position, where [str] tells whether [new] has
    dtype str: a null of [new] takes the value of [old], and the result has
    the dtype of [new]. *)
Definition fillna (str : bool) (new old : cell) : cell :=
  as_dtype str (if isna new then old else new).

(** The two statements after the merge: fill [sample_id] from
    [sample_id_new], which has the dtype of the caller's [sample_id]
    column, then drop [sample_id_new]. *)
Definition fill_and_drop (str : bool) (m : list (WellRecord * cell))
    : DataFrame :=
  (λ '(w, new), set_sample_id (fillna str new (sample_id w)) w) <$> m.

Definition add_samples (sample_ids : source) (self : Microplate) : run unit :=
  match sample_ids with
  | SrcNone =>
      Run self [of_string "No samples provided."] (Ok tt)
  | SrcDict d =>
      let mask := isin d (df self) in
      let rhs := series_map d (loc_get mask (df self)) in
      Run (set_df (loc_set mask rhs (df self)) self) [] (Ok tt)
  | SrcFrame t =>
      if negb (has_column "well_index" t) || negb (has_column "sample_id" t)
      then Run self []
             (Raise (ValueError
                "DataFrame must have 'well_index' and 'sample_id' columns."))
      else if key_mismatch (df self) t
      then Run self [] (Raise merge_error)
      else
        let merged := merge_left (df self) (project t) in
        Run (set_df (fill_and_drop (str_samples t) merged) self) [] (Ok tt)
  | SrcOther _ =>
      Run self
        [of_string "Invalid input type. Expected a dictionary or DataFrame."]
        (Ok tt)
  end.

(** ** [__post_init__] *)

(** [Series.unique()]: the distinct values in order of first appearance. *)
Fixpoint unique {A} `{EqDecision A} (l : list A) : list A :=
  match l with
  | [] => []
  | x :: l' => x :: filter (λ y, y ≠ x) (unique l')
  end.

Definition name_error : exn :=
  ValueError "Plate name must be consistent across all wells".
Definition id_error : exn :=
  ValueError "Plate ID must be consistent across all wells".

(** The two consistency checks that end [__post_init__]. *)
Definition validate (d : DataFrame) : result unit :=
  if bool_decide (1 < length (unique (rec_plate_name <$> d)))
  then Raise name_error
  else if bool_decide (1 < length (unique (rec_plate_id <$> d)))
  then Raise id_error
  else Ok tt.

(** The object as the generated [__init__] leaves it for [__post_init__]
    once the base frame exists. *)
Definition fresh (rows cols : nat) (pn pid : option pystr) (s : source)
    (d : DataFrame) : Microplate :=
  {| rows := rows; cols := cols; plate_name := pn; plate_id := pid;
     sample_ids := s; df := d |}.

(** The frame [__post_init__] builds before it looks at [sample_ids]. *)
Definition base_df (rows cols : nat) (pn pid : option pystr)
    : result DataFrame :=
  g ← well_grid rows cols;
  base_frame (replicate (rows * cols) pn) (replicate (rows * cols) pid) g.

(** [Microplate(rows, cols, plate_name, plate_id, sample_ids)]: what is
    printed, and the object or the exception. *)
Definition post_init (rows cols : nat) (pn pid : option pystr) (s : source)
    : list pystr * result Microplate :=
  match base_df rows cols pn pid with
  | Raise e => ([], Raise e)
  | Ok d =>
      let r := add_samples s (fresh rows cols pn pid s d) in
      match outcome r with
      | Raise e => (stdout r, Raise e)
      | Ok _ =>
          (stdout r, _ ← validate (df (self_after r)); Ok (self_after r))
      end
  end.

(** ** [print_matrix] *)

(** [f"{x}"] for an [Optional[str]] field. *)
Definition show_opt (x : option pystr) : pystr :=
  match x with
  | None => of_string "None"
  | Some s => s
  end.

(** [a.reshape(r, c)] on a flat array: C order, so row [i] is the slice
    [a[i*c : (i+1)*c]]; the sizes must agree. *)
Definition np_reshape {A} (r c : nat) (a : list A) : result (list (list A)) :=
  if decide (length a = r * c) then Ok (reshape (replicate r c) a)
  else Raise (ValueError "cannot reshape array").

(** One field of a data line. *)
Definition fmt_cell (x : cell) : pystr :=
  match x with
  | PyNone => of_string "    -     "
  | NaN => center 10 (of_string "nan")
  | Str s => center 10 s
  end.

Definition header_line (cols : nat) : pystr :=
  of_string "   " ++
  join (of_string " ") ((λ i, center 10 (str_int i)) <$> seq 1 cols).

Definition data_line (row_letter : N) (r : list cell) : pystr :=
  row_letter :: of_string "  " ++ join (of_string " ") (fmt_cell <$> r).

(** [for i, row in enumerate(matrix): ... print(...)], with the lines
    already printed. *)
Fixpoint print_rows (m : list (nat * list cell)) (out : list pystr)
    : list pystr * result unit :=
  match m with
  | [] => (out, Ok tt)
  | (i, r) :: m' =>
      match chr (65 + N.of_nat i) with
      | Raise e => (out, Raise e)
      | Ok row_letter =>
          match py_print (data_line row_letter r) out with
          | (out', Ok _) => print_rows m' out'
          | (out', Raise e) => (out', Raise e)
          end
      end
  end.

Definition print_matrix (self : Microplate) : list pystr * result unit :=
  match np_reshape (rows self) (cols self) (sample_id <$> df self) with
  | Raise e => ([], Raise e)
  | Ok matrix =>
      match py_print (of_string "Plate Name: " ++ show_opt (plate_name self))
                     [] with
      | (out, Raise e) => (out, Raise e)
      | (out, Ok _) =>
      match py_print (of_string "Plate ID: " ++ show_opt (plate_id self))
                     out with
      | (out, Raise e) => (out, Raise e)
      | (out, Ok _) =>
      match py_print (header_line (cols self)) out with
      | (out, Raise e) => (out, Raise e)
      | (out, Ok _) => print_rows (imap pair matrix) out
      end end end
  end.

(** ** The single-file variant [microplate.py] *)

Module Legacy.

(** Its [__post_init__] fills [sample_id] itself instead of calling
    [add_samples]; the base frame has no [sample_id] column yet. *)
Definition fill_samples (s : source) (d : DataFrame) : result DataFrame :=
  match s with
  | SrcDict m =>
      Ok ((λ w, set_sample_id
                  (match m !! well_index w with
                   | Some v => Str v
                   | None => NaN
                   end) w) <$> d)
  | SrcFrame t =>
      if has_column "well_index" t && has_column "sample_id" t
      then if key_mismatch d t then Raise merge_error
           else Ok ((λ '(w, new), set_sample_id new w)
                      <$> merge_left d (project t))
      else Raise (KeyError "not in index")
  | SrcNone => Ok (set_sample_id PyNone <$> d)
  | SrcOther _ =>
      Raise (ValueError "sample_ids must be a dictionary, DataFrame, or None")
  end.

Definition post_init (rows cols : nat) (pn pid : option pystr) (s : source)
    : result Microplate :=
  d ← base_df rows cols pn pid;
  d' ← fill_samples s d;
  _ ← validate d';
  Ok (fresh rows cols pn pid s d').

End Legacy.

(** ** Specification-level views of the code *)

(** The largest row count for which every [chr(65 + row)] exists. *)
Definition max_rows : N := 1114047.

(** The row the generation loops emit for column number [col] and row index
    [row]. *)
Definition well_at (pn pid : option pystr) (col row : nat) : WellRecord :=
  {| rec_plate_name := pn;
     rec_plate_id := pid;
     well_index := (65 + N.of_nat row)%N :: str_int col;
     row := [(65 + N.of_nat row)%N];
     column := col;
     sample_id := PyNone |}.

(** The (column, row) pairs in generation order. *)
Definition column_major (rows cols : nat) : list (nat * nat) :=
  col ← seq 1 cols; pair col <$> seq 0 rows.

(** The lists of a grid after the loops have visited the pairs [ps]. *)
Definition grid_ext (g : grid_lists) (ps : list (nat * nat)) : grid_lists :=
  {| well_indexes :=
       well_indexes g ++ ((λ p, (65 + N.of_nat p.2)%N :: str_int p.1) <$> ps);
     grid_rows := grid_rows g ++ ((λ p, [(65 + N.of_nat p.2)%N]) <$> ps);
     grid_cols := grid_cols g ++ (fst <$> ps) |}.

(** What the dictionary form of [add_samples] does to one row. *)
Definition assign (d : gmap pystr pystr) (w : WellRecord) : WellRecord :=
  match d !! well_index w with
  | Some v => set_sample_id (Str v) w
  | None => w
  end.

(** A plate row that a tabular source does not overwrite: it keeps its
    sample; only when the source's [sample_id] column has dtype str ([str]
    true) does an unset [None] become NaN. *)
Definition kept (str : bool) (w : WellRecord) : WellRecord :=
  set_sample_id (as_dtype str (sample_id w)) w.

(** What one matching row of a tabular source does to a plate row. *)
Definition overwrite (str : bool) (w : WellRecord) (r : cell * cell)
    : WellRecord :=
  if isna r.2 then kept str w else set_sample_id r.2 w.

(** The plate rows a tabular source turns one plate row into. *)
Definition joined (str : bool) (right : list (cell * cell)) (w : WellRecord)
    : list WellRecord :=
  match matches right w with
  | [] => [kept str w]
  | ms => overwrite str w <$> ms
  end.

(** The object after a call of [add_samples]. *)
Definition after (s : source) (self : Microplate) : Microplate :=
  self_after (add_samples s self).

(** ** Concrete plates and sources *)

(** The plate [Microplate(rows, cols, plate_name="P1", plate_id="ID1")]. *)
Definition example_plate (rows cols : nat) : Microplate :=
  fresh rows cols (Some (of_string "P1")) (Some (of_string "ID1")) SrcNone
    ((λ p, well_at (Some (of_string "P1")) (Some (of_string "ID1")) p.1 p.2)
       <$> column_major rows cols).

(** A dictionary literal. *)
Definition dict_of (l : list (string * string)) : gmap pystr pystr :=
  list_to_map ((λ p, (of_string p.1, of_string p.2)) <$> l).

(** [pd.DataFrame({'well_index': wi, 'sample_id': sid}, dtype=object)] *)
Definition table_of (wi sid : list cell) : Table :=
  <[of_string "well_index" := ObjectCol wi]>
    (<[of_string "sample_id" := ObjectCol sid]> ∅).

(** The same frame with both columns of dtype str. *)
Definition str_table_of (wi sid : list (option pystr)) : Table :=
  <[of_string "well_index" := StrCol wi]>
    (<[of_string "sample_id" := StrCol sid]> ∅).

(** A frame whose [well_index] column is float64: [n] rows of NaN keys. *)
Definition float_key_table (n : positive) (sid : list cell) : Table :=
  <[of_string "well_index" := FloatCol n]>
    (<[of_string "sample_id" := ObjectCol sid]> ∅).

(** The lines [print_matrix] has to print once the reshape has succeeded. *)
Definition grid_lines (self : Microplate) : list pystr :=
  [of_string "Plate Name: " ++ show_opt (plate_name self);
   of_string "Plate ID: " ++ show_opt (plate_id self);
   header_line (cols self)]
  ++ imap (λ i, data_line (65 + N.of_nat i))
       (reshape (replicate (rows self) (cols self)) (sample_id <$> df self)).

(** The largest row count whose row letters are all printable: row index
    55231 has the letter U+D800. *)
Definition max_printable_rows : N := 55231.

(** A cell whose field [print] can write. *)
Definition printable (x : cell) : bool :=
  match x with
  | Str s => encodable s
  | PyNone | NaN => true
  end.

(** ** Further views *)

(** A sequence of [add_samples] calls on one object, in order.  A call that
    raises leaves the object as it was, and the next call goes on from
    there. *)
Definition add_all (ss : list source) (self : Microplate) : Microplate :=
  foldl (λ p s, after s p) self ss.


(** An argument that is no data frame whose [sample_id] column has dtype
    str. *)
Definition object_source (s : source) : bool :=
  match s with
  | SrcFrame t => negb (str_samples t)
  | _ => true
  end.

(** The string a cell holds, if it holds one. *)
Definition value (x : cell) : option pystr :=
  match x with
  | Str s => Some s
  | PyNone | NaN => None
  end.

(** Two rows that agree on every column, the [sample_id] up to the kind of
    null. *)
Definition same_up_to_null (w w' : WellRecord) : Prop :=
  rec_plate_name w = rec_plate_name w' ∧
  rec_plate_id w = rec_plate_id w' ∧
  well_index w = well_index w' ∧
  row w = row w' ∧
  column w = column w' ∧
  value (sample_id w) = value (sample_id w').



(** The number of rows a left merge emits for one plate row. *)
Definition emitted (right : list (cell * cell)) (w : WellRecord) : nat :=
  1 `max` length (matches right w).

(** The length of a grid line of [cols] fields of ten characters. *)
Definition line_width (cols : nat) : nat := 3 + (11 * cols - 1).

(** * Properties *)

(** ** Strings *)

Lemma of_string_inj s1 s2 : of_string s1 = of_string s2 → s1 = s2.
Proof.
  revert s2. induction s1 as [|a s1 IH]; intros [|b s2]; simpl; try done.
  intros [= Hab Hs]. f_equal; [|by apply IH].
  rewrite <- (ascii_N_embedding a), <- (ascii_N_embedding b). by rewrite Hab.
Qed.

Lemma str_int_inj n m : str_int n = str_int m → n = m.
Proof. intros H. apply of_string_inj in H. by apply (inj pretty) in H. Qed.

Lemma length_center w s : length (center w s) = w `max` len s.
Proof.
  unfold center, len. rewrite !length_app, !length_replicate.
  assert ((w - length s) / 2 ≤ w - length s) by (apply Nat.Div0.div_le_upper_bound; lia).
  lia.
Qed.

(** ** The generation loops *)

Lemma grid_ext_nil g : grid_ext g [] = g.
Proof. destruct g. unfold grid_ext. simpl. by rewrite !app_nil_r. Qed.

Lemma grid_ext_app g ps qs : grid_ext (grid_ext g ps) qs = grid_ext g (ps ++ qs).
Proof. unfold grid_ext. simpl. by rewrite !fmap_app, !app_assoc. Qed.

Lemma chr_ok i : (i < 1114112)%N → chr i = Ok i.
Proof. intros H. unfold chr. by rewrite (proj2 (N.ltb_lt _ _) H). Qed.

Lemma chr_raise i :
  (1114112 ≤ i)%N →
  chr i = Raise (ValueError "chr() arg not in range(0x110000)").
Proof. intros H. unfold chr. by rewrite (proj2 (N.ltb_ge _ _) H). Qed.

Lemma bind_Ok {A B} (a : A) (f : A → result B) : Ok a ≫= f = f a.
Proof. reflexivity. Qed.

Lemma bind_Raise {A B} e (f : A → result B) : Raise e ≫= f = Raise e.
Proof. reflexivity. Qed.

Lemma for_each_cons {A S} (x : A) xs (body : A → S → result S) s :
  for_each (x :: xs) body s = body x s ≫= for_each xs body.
Proof. reflexivity. Qed.

Lemma grid_step_ok col row g :
  (N.of_nat row < max_rows)%N →
  grid_step col row g = Ok (grid_ext g [(col, row)]).
Proof. unfold max_rows, grid_step. intros H. by rewrite chr_ok by lia. Qed.

Lemma grid_step_raise col row g :
  (max_rows ≤ N.of_nat row)%N →
  grid_step col row g = Raise (ValueError "chr() arg not in range(0x110000)").
Proof. unfold max_rows, grid_step. intros H. by rewrite chr_raise by lia. Qed.

Lemma inner_loop col s n g :
  (N.of_nat (s + n) ≤ max_rows)%N →
  for_each (seq s n) (grid_step col) g = Ok (grid_ext g (pair col <$> seq s n)).
Proof.
  unfold max_rows. revert s g. induction n as [|n IH]; intros s g Hb.
  - simpl. by rewrite grid_ext_nil.
  - change (seq s (S n)) with (s :: seq (S s) n). rewrite for_each_cons.
    rewrite grid_step_ok, bind_Ok by (unfold max_rows; lia).
    rewrite IH by lia. f_equal.
    change (grid_ext (grid_ext g [(col, s)]) (pair col <$> seq (S s) n) =
            grid_ext g ([(col, s)] ++ (pair col <$> seq (S s) n))).
    apply grid_ext_app.
Qed.

Lemma inner_loop_raise col s n g :
  (max_rows < N.of_nat (s + n))%N → 0 < n →
  for_each (seq s n) (grid_step col) g =
    Raise (ValueError "chr() arg not in range(0x110000)").
Proof.
  unfold max_rows. revert s g. induction n as [|n IH]; intros s g Hb Hn; [lia|].
  change (seq s (S n)) with (s :: seq (S s) n). rewrite for_each_cons.
  destruct (decide (N.of_nat s < 1114047)%N) as [Hs|Hs].
  - rewrite grid_step_ok, bind_Ok by done. apply IH; lia.
  - by rewrite grid_step_raise by (unfold max_rows; lia).
Qed.

Lemma outer_loop rows s m g :
  (N.of_nat rows ≤ max_rows)%N →
  for_each (seq s m) (λ col g, for_each (seq 0 rows) (grid_step col) g) g =
    Ok (grid_ext g (col ← seq s m; pair col <$> seq 0 rows)).
Proof.
  intros Hb. revert s g. induction m as [|m IH]; intros s g.
  - simpl. by rewrite grid_ext_nil.
  - change (seq s (S m)) with (s :: seq (S s) m). rewrite for_each_cons.
    rewrite inner_loop, bind_Ok by done. rewrite IH, grid_ext_app.
    by rewrite bind_cons.
Qed.

Lemma well_grid_ok rows cols :
  (N.of_nat rows ≤ max_rows)%N →
  well_grid rows cols = Ok (grid_ext grid_empty (column_major rows cols)).
Proof. intros Hb. by apply outer_loop. Qed.

Lemma well_grid_raise rows cols :
  (max_rows < N.of_nat rows)%N → 0 < cols →
  well_grid rows cols = Raise (ValueError "chr() arg not in range(0x110000)").
Proof.
  intros Hb Hc. unfold well_grid. destruct cols as [|cols]; [lia|].
  change (seq 1 (S cols)) with (1 :: seq 2 cols). rewrite for_each_cons.
  by rewrite inner_loop_raise by lia.
Qed.

Lemma length_column_major rows cols :
  length (column_major rows cols) = rows * cols.
Proof.
  unfold column_major. generalize 1. induction cols as [|c IH]; intros s; simpl.
  - lia.
  - rewrite length_app, length_fmap, length_seq, IH. lia.
Qed.

Lemma column_major_S rows cols :
  column_major rows (S cols) =
    column_major rows cols ++ (pair (S cols) <$> seq 0 rows).
Proof.
  unfold column_major. rewrite seq_S, bind_app. simpl.
  by rewrite app_nil_r.
Qed.

Lemma lookup_column_major rows cols j i :
  j < cols → i < rows →
  column_major rows cols !! (j * rows + i) = Some (j + 1, i).
Proof.
  induction cols as [|c IH]; intros Hj Hi; [lia|].
  rewrite column_major_S.
  destruct (decide (j < c)) as [Hlt|Hge].
  - rewrite lookup_app_l by (rewrite length_column_major; nia). by apply IH.
  - assert (j = c) as -> by lia.
    rewrite lookup_app_r by (rewrite length_column_major; nia).
    rewrite length_column_major, list_lookup_fmap.
    replace (c * rows + i - rows * c) with i by nia.
    rewrite lookup_seq_lt by done. simpl. do 2 f_equal. lia.
Qed.

(** ** The base frame *)

Lemma base_frame_ext pn pid ps :
  base_frame (replicate (length ps) pn) (replicate (length ps) pid)
             (grid_ext grid_empty ps)
  = Ok ((λ p, well_at pn pid p.1 p.2) <$> ps).
Proof.
  unfold base_frame. simpl. rewrite bool_decide_eq_true_2.
  2: { by rewrite !length_replicate, !length_fmap. }
  f_equal. rewrite zip_with_replicate.
  rewrite zip_with_replicate_l by by rewrite !length_zip_with, !length_fmap; lia.
  induction ps as [|[c r] ps IH]; [done|]. csimpl. f_equal. exact IH.
Qed.

Lemma base_df_ok rows cols pn pid :
  (N.of_nat rows ≤ max_rows)%N →
  base_df rows cols pn pid =
    Ok ((λ p, well_at pn pid p.1 p.2) <$> column_major rows cols).
Proof.
  intros Hb. unfold base_df. rewrite well_grid_ok, bind_Ok by done.
  rewrite <- (length_column_major rows cols). apply base_frame_ext.
Qed.

Lemma base_df_raise rows cols pn pid :
  (max_rows < N.of_nat rows)%N → 0 < cols →
  base_df rows cols pn pid =
    Raise (ValueError "chr() arg not in range(0x110000)").
Proof. intros Hb Hc. unfold base_df. by rewrite well_grid_raise. Qed.

(** Every row of the base frame carries the constructor's name and id. *)
Lemma base_frame_uniform names ids g d w :
  base_frame names ids g = Ok d → w ∈ d →
  rec_plate_name w ∈ names ∧ rec_plate_id w ∈ ids.
Proof.
  unfold base_frame. case_bool_decide; [|done]. intros [= <-] Hw.
  apply elem_of_zip_with in Hw as ([pn pid] & [[wi r] c] & -> & Hp & _).
  apply elem_of_zip_with in Hp as (? & ? & [= -> ->] & ? & ?). done.
Qed.

Lemma base_df_uniform rows cols pn pid d w :
  base_df rows cols pn pid = Ok d → w ∈ d →
  rec_plate_name w = pn ∧ rec_plate_id w = pid.
Proof.
  unfold base_df. destruct (well_grid rows cols) as [g|e]; [|done].
  rewrite bind_Ok. intros Hd Hw.
  destruct (base_frame_uniform _ _ _ _ _ Hd Hw) as [H1 H2].
  apply elem_of_replicate_inv in H1, H2. done.
Qed.

(** ** [add_samples] with a dictionary *)

Lemma set_sample_id_same w : set_sample_id (sample_id w) w = w.
Proof. by destruct w. Qed.

Lemma omap_cons_eq {A B} (f : A → option B) x l :
  omap f (x :: l) = match f x with Some y => y :: omap f l | None => omap f l end.
Proof. reflexivity. Qed.

Lemma series_map_cons d i k s :
  series_map d ((i, k) :: s) =
    (i, match d !! k with Some v => Str v | None => NaN end) :: series_map d s.
Proof. reflexivity. Qed.

Lemma series_at_below d n (bw : list (bool * WellRecord)) j :
  j < n →
  series_at
    (series_map d
       (omap (λ '(i, (b, w)), if b : bool then Some (i, well_index w) else None)
             (imap (λ i, pair (n + i)) bw))) j = None.
Proof.
  revert n. induction bw as [|[b w] bw IH]; intros n Hj; [done|].
  rewrite imap_cons.
  rewrite (imap_ext _ (λ i, pair (S n + i))) by (intros; simpl; f_equal; lia).
  rewrite omap_cons_eq. destruct b; cbv beta iota.
  - rewrite series_map_cons. cbn [series_at].
    rewrite decide_False by lia. apply IH. lia.
  - apply IH. lia.
Qed.

Lemma series_at_hit d n (bw : list (bool * WellRecord)) (i : nat) (b : bool) w :
  bw !! i = Some (b, w) →
  series_at
    (series_map d
       (omap (λ '(i, (b, w)), if b : bool then Some (i, well_index w) else None)
             (imap (λ i, pair (n + i)) bw))) (n + i)
  = (if b then Some (match d !! well_index w with
                     | Some v => Str v
                     | None => NaN
                     end)
     else None).
Proof.
  revert n i. induction bw as [|[b0 w0] bw IH]; intros n i Hi; [done|].
  rewrite imap_cons.
  rewrite (imap_ext _ (λ i, pair (S n + i))) by (intros; simpl; f_equal; lia).
  rewrite omap_cons_eq. destruct i as [|i]; simpl in Hi.
  - injection Hi as -> ->. destruct b; cbv beta iota.
    + rewrite series_map_cons. cbn [series_at]. by rewrite decide_True by lia.
    + apply series_at_below. lia.
  - replace (n + S i) with (S n + i) by lia. destruct b0; cbv beta iota.
    + rewrite series_map_cons. cbn [series_at].
      rewrite decide_False by lia. by apply IH.
    + by apply IH.
Qed.

Lemma loc_get_at d mask (l : DataFrame) (i : nat) (b : bool) w :
  mask !! i = Some b → l !! i = Some w →
  series_at (series_map d (loc_get mask l)) i
  = (if b then Some (match d !! well_index w with
                     | Some v => Str v
                     | None => NaN
                     end)
     else None).
Proof.
  intros Hb Hw. apply (series_at_hit d 0 (zip mask l) i b w).
  by rewrite lookup_zip_with, Hb, Hw.
Qed.

Lemma lookup_isin d (l : DataFrame) i :
  isin d l !! i = (λ w, bool_decide (well_index w ∈ dom d)) <$> l !! i.
Proof. apply list_lookup_fmap. Qed.

Lemma loc_set_dict d (l : DataFrame) :
  loc_set (isin d l) (series_map d (loc_get (isin d l) l)) l = assign d <$> l.
Proof.
  apply list_eq. intros i. unfold loc_set.
  rewrite list_lookup_imap, list_lookup_fmap, lookup_zip_with, lookup_isin.
  destruct (l !! i) as [w|] eqn:Hw; [|done]. cbn [fmap option_fmap option_map mbind option_bind].
  rewrite (loc_get_at d _ l i (bool_decide (well_index w ∈ dom d)) w)
    by (by rewrite ?lookup_isin, ?Hw).
  unfold assign. case_bool_decide as Hd; simpl.
  - apply elem_of_dom in Hd as [v Hv]. by rewrite Hv.
  - apply not_elem_of_dom in Hd. by rewrite Hd.
Qed.

Lemma add_samples_dict d self :
  add_samples (SrcDict d) self =
    Run (set_df (assign d <$> df self) self) [] (Ok tt).
Proof. unfold add_samples. by rewrite loc_set_dict. Qed.

(** ** [add_samples] with a data frame *)

Lemma as_dtype_not_null str v : isna v = false → as_dtype str v = v.
Proof. intros H. unfold as_dtype. by rewrite H, andb_false_r. Qed.

Lemma kept_object w : kept false w = w.
Proof. unfold kept, as_dtype. simpl. apply set_sample_id_same. Qed.

Lemma fill_overwrite str w (r : cell * cell) :
  set_sample_id (fillna str r.2 (sample_id w)) w = overwrite str w r.
Proof.
  unfold overwrite, fillna, kept. destruct (isna r.2) eqn:Hna; [done|].
  by rewrite as_dtype_not_null.
Qed.

Lemma fill_merge str (l : DataFrame) right :
  fill_and_drop str (merge_left l right) = l ≫= joined str right.
Proof.
  unfold fill_and_drop, merge_left.
  induction l as [|w l IH]; [done|].
  rewrite !bind_cons, fmap_app, IH. f_equal.
  unfold joined. destruct (matches right w) as [|r ms]; cbv beta iota.
  - reflexivity.
  - rewrite <- list_fmap_compose. apply list_fmap_ext. intros _ r' _.
    apply (fill_overwrite str w r').
Qed.

Lemma add_samples_frame t self :
  has_column "well_index" t = true → has_column "sample_id" t = true →
  key_mismatch (df self) t = false →
  add_samples (SrcFrame t) self =
    Run (set_df (df self ≫= joined (str_samples t) (project t)) self) []
        (Ok tt).
Proof.
  intros H1 H2 H3. unfold add_samples. rewrite H1, H2, H3. simpl.
  by rewrite fill_merge.
Qed.

Lemma add_samples_frame_raise t self :
  has_column "well_index" t = false ∨ has_column "sample_id" t = false →
  add_samples (SrcFrame t) self =
    Run self []
      (Raise (ValueError
         "DataFrame must have 'well_index' and 'sample_id' columns.")).
Proof.
  intros H. unfold add_samples.
  destruct H as [-> | ->]; [done|]. by rewrite orb_true_r.
Qed.

Lemma add_samples_frame_mismatch t self :
  has_column "well_index" t = true → has_column "sample_id" t = true →
  key_mismatch (df self) t = true →
  add_samples (SrcFrame t) self = Run self [] (Raise merge_error).
Proof. intros H1 H2 H3. unfold add_samples. by rewrite H1, H2, H3. Qed.

(** The three ways the data frame branch can go. *)
Lemma add_samples_frame_cases t self :
  (add_samples (SrcFrame t) self =
     Run (set_df (df self ≫= joined (str_samples t) (project t)) self) []
         (Ok tt) ∧
   has_column "well_index" t = true ∧ has_column "sample_id" t = true ∧
   key_mismatch (df self) t = false) ∨
  (∃ e, add_samples (SrcFrame t) self = Run self [] (Raise e) ∧
        (has_column "well_index" t = false ∨ has_column "sample_id" t = false ∨
         key_mismatch (df self) t = true)).
Proof.
  destruct (has_column "well_index" t) eqn:H1;
    [destruct (has_column "sample_id" t) eqn:H2;
     [destruct (key_mismatch (df self) t) eqn:H3|]|].
  - right. eexists. split; [by apply add_samples_frame_mismatch|auto].
  - left. by rewrite add_samples_frame.
  - right. eexists. split; [apply add_samples_frame_raise|]; auto.
  - right. eexists. split; [apply add_samples_frame_raise|]; auto.
Qed.

Lemma filter_none {A} (P : A → Prop) `{∀ x, Decision (P x)} (l : list A) :
  (∀ x, x ∈ l → ¬ P x) → filter P l = [].
Proof.
  induction l as [|x l IH]; intros Hno; [done|].
  rewrite filter_cons, decide_False by (apply Hno; by left).
  apply IH. intros y Hy. apply Hno. by right.
Qed.

(** A float64 key column holds NaN only, which is no well index. *)
Lemma key_mismatch_no_match left t w :
  key_mismatch left t = true → matches (project t) w = [].
Proof.
  unfold key_mismatch, project, matches.
  destruct (t !! of_string "well_index") as [[l|n|l]|]; try done. intros _.
  simpl. apply filter_none. intros [k v] Hin Hk. simpl in Hk. subst k.
  apply elem_of_zip_l in Hin. by apply elem_of_replicate_inv in Hin.
Qed.

(** A source whose rows match every plate row at most once. *)
Lemma joined_unique str right (l : DataFrame) :
  (∀ w, w ∈ l → length (matches right w) ≤ 1) →
  l ≫= joined str right
  = (λ w, default (kept str w) (overwrite str w <$> head (matches right w)))
      <$> l.
Proof.
  induction l as [|w l IH]; intros H; [done|].
  rewrite bind_cons, fmap_cons, IH by (intros; apply H; by right).
  f_equal. unfold joined.
  pose proof (H w ltac:(by left)) as Hw.
  destruct (matches right w) as [|r [|??]]; simpl in *; [done|done|lia].
Qed.

(** Whatever the source, a row of the frame afterwards is a row of the frame
    before with, at most, another [sample_id]. *)
Lemma add_samples_rows s self w' :
  w' ∈ df (self_after (add_samples s self)) →
  ∃ w v, w ∈ df self ∧ w' = set_sample_id v w.
Proof.
  assert (∀ w, w ∈ df self → ∃ w0 v, w0 ∈ df self ∧ w = set_sample_id v w0)
    as Hsame.
  { intros w Hw. exists w, (sample_id w). by rewrite set_sample_id_same. }
  destruct s as [|d|t|v].
  - apply Hsame.
  - simpl. rewrite loc_set_dict. intros (w & -> & Hw)%list_elem_of_fmap.
    unfold assign. destruct (d !! well_index w); eauto.
  - destruct (add_samples_frame_cases t self) as [[-> _]|(e & -> & _)];
      [|apply Hsame].
    simpl. intros (w & Hj & Hw)%list_elem_of_bind.
    unfold joined in Hj. destruct (matches (project t) w) as [|r ms] eqn:Hm.
    + apply list_elem_of_singleton in Hj as ->. unfold kept. eauto.
    + apply list_elem_of_fmap in Hj as (r' & -> & _).
      unfold overwrite, kept. destruct (isna r'.2); eauto.
  - apply Hsame.
Qed.

(** ** The consistency checks *)

Lemma elem_of_unique {A} `{EqDecision A} (x : A) l : x ∈ unique l → x ∈ l.
Proof.
  induction l as [|y l IH]; simpl; [done|].
  intros [->|Hx]%elem_of_cons; [by left|].
  apply list_elem_of_filter in Hx as [_ Hx]. right. by apply IH.
Qed.

Lemma unique_uniform {A} `{EqDecision A} (x : A) l :
  (∀ y, y ∈ l → y = x) → length (unique l) ≤ 1.
Proof.
  destruct l as [|y l]; simpl; intros H; [lia|].
  destruct (filter (λ z, z ≠ y) (unique l)) as [|z k] eqn:Hf; simpl; [lia|].
  assert (z ∈ filter (λ z, z ≠ y) (unique l)) as Hz by (rewrite Hf; by left).
  apply list_elem_of_filter in Hz as [Hne Hz%elem_of_unique].
  destruct Hne. rewrite (H y), (H z); [done|by right|by left].
Qed.

Lemma validate_uniform pn pid (d : DataFrame) :
  (∀ w, w ∈ d → rec_plate_name w = pn ∧ rec_plate_id w = pid) →
  validate d = Ok tt.
Proof.
  intros H. unfold validate.
  rewrite bool_decide_eq_false_2.
  2: { apply Nat.le_ngt, (unique_uniform pn).
       intros y (w & -> & Hw)%list_elem_of_fmap. by apply H. }
  rewrite bool_decide_eq_false_2; [done|].
  apply Nat.le_ngt, (unique_uniform pid).
  intros y (w & -> & Hw)%list_elem_of_fmap. by apply H.
Qed.

Lemma add_samples_uniform s self pn pid :
  (∀ w, w ∈ df self → rec_plate_name w = pn ∧ rec_plate_id w = pid) →
  ∀ w, w ∈ df (self_after (add_samples s self)) →
       rec_plate_name w = pn ∧ rec_plate_id w = pid.
Proof.
  intros H w' (w & v & Hw & ->)%add_samples_rows. exact (H w Hw).
Qed.

Lemma for_each_raise_inv {A S} (P : exn → Prop) xs (body : A → S → result S) s e :
  (∀ x s e, body x s = Raise e → P e) →
  for_each xs body s = Raise e → P e.
Proof.
  intros Hbody. revert s. induction xs as [|x xs IH]; intros s; [done|].
  rewrite for_each_cons. destruct (body x s) as [s'|e'] eqn:Hb.
  - rewrite bind_Ok. apply IH.
  - rewrite bind_Raise. intros [= <-]. by eapply Hbody.
Qed.

Lemma base_df_raise_inv rows cols pn pid e :
  base_df rows cols pn pid = Raise e →
  e = ValueError "chr() arg not in range(0x110000)" ∨
  e = ValueError "All arrays must be of the same length".
Proof.
  unfold base_df. destruct (well_grid rows cols) as [g|e'] eqn:Hg.
  - rewrite bind_Ok. unfold base_frame. case_bool_decide; [done|].
    intros [= <-]. by right.
  - rewrite bind_Raise. intros [= <-]. left. revert Hg. unfold well_grid.
    apply (for_each_raise_inv
             (λ e, e = ValueError "chr() arg not in range(0x110000)")).
    intros col g e.
    apply (for_each_raise_inv
             (λ e, e = ValueError "chr() arg not in range(0x110000)")).
    clear. intros r g e. unfold grid_step, chr.
    destruct (_ <? _)%N; [done|]. by intros [= <-].
Qed.

Lemma add_samples_raise_inv s self e :
  outcome (add_samples s self) = Raise e →
  e = ValueError "DataFrame must have 'well_index' and 'sample_id' columns."
  ∨ e = merge_error.
Proof.
  destruct s as [|d|t|v]; simpl; try done.
  destruct (negb _ || negb _); simpl; [intros [= <-]; by left|].
  destruct (key_mismatch _ _); simpl; [|done]. intros [= <-]. by right.
Qed.

Lemma fill_samples_uniform s (d d' : DataFrame) pn pid :
  Legacy.fill_samples s d = Ok d' →
  (∀ w, w ∈ d → rec_plate_name w = pn ∧ rec_plate_id w = pid) →
  ∀ w, w ∈ d' → rec_plate_name w = pn ∧ rec_plate_id w = pid.
Proof.
  intros Hf H w'. destruct s as [|m|t|v]; simpl in Hf.
  - injection Hf as <-. intros (w & -> & Hw)%list_elem_of_fmap. exact (H w Hw).
  - injection Hf as <-. intros (w & -> & Hw)%list_elem_of_fmap. exact (H w Hw).
  - destruct (has_column _ t && has_column _ t); [|done].
    destruct (key_mismatch d t); [done|].
    injection Hf as <-. intros ([w new] & -> & Hw)%list_elem_of_fmap.
    unfold merge_left in Hw. apply list_elem_of_bind in Hw as (w0 & Hw & Hw0).
    assert (w = w0) as ->.
    { destruct (matches (project t) w0).
      - by apply list_elem_of_singleton in Hw as [= -> _].
      - by apply list_elem_of_fmap in Hw as (? & [= -> _] & _). }
    exact (H w0 Hw0).
  - done.
Qed.

(** ** [print_matrix] *)

Lemma lookup_reshape_replicate {A} r c (a : list A) i :
  i < r → reshape (replicate r c) a !! i = Some (take c (drop (i * c) a)).
Proof.
  revert i a. induction r as [|r IH]; intros i a Hi; [lia|].
  destruct i as [|i]; simpl; [done|].
  rewrite IH by lia. by rewrite drop_drop.
Qed.


(** *** What can be printed *)

Lemma encodable_app a b : encodable (a ++ b) = encodable a && encodable b.
Proof. apply forallb_app. Qed.

Lemma encodable_below (c : N) : (c < 55296)%N → is_surrogate c = false.
Proof.
  intros H. unfold is_surrogate. apply andb_false_intro1, N.leb_gt. lia.
Qed.

Lemma N_of_ascii_below a : (N_of_ascii a < 256)%N.
Proof. destruct a as [[] [] [] [] [] [] [] []]; vm_compute; reflexivity. Qed.

Lemma encodable_of_string s : encodable (of_string s) = true.
Proof.
  induction s as [|a s IH]; [done|]. simpl.
  rewrite encodable_below, IH; [done|].
  pose proof (N_of_ascii_below a). lia.
Qed.

Lemma encodable_spaces n : encodable (replicate n 32%N) = true.
Proof. induction n as [|n IH]; [done|]. simpl. exact IH. Qed.

Lemma encodable_center w s : encodable (center w s) = encodable s.
Proof.
  unfold center. rewrite !encodable_app, !encodable_spaces.
  by rewrite andb_true_r.
Qed.

Lemma encodable_join sep parts :
  encodable sep = true →
  encodable (join sep parts) = forallb encodable parts.
Proof.
  intros Hsep. induction parts as [|p [|q ps] IH]; [done|simpl; by rewrite andb_true_r|].
  change (join sep (p :: q :: ps)) with (p ++ sep ++ join sep (q :: ps)).
  rewrite !encodable_app, Hsep, IH. done.
Qed.

Lemma encodable_fmt_cell x : encodable (fmt_cell x) = printable x.
Proof.
  destruct x as [| |s]; [done|done|]. simpl. apply encodable_center.
Qed.

Lemma encodable_header cols : encodable (header_line cols) = true.
Proof.
  unfold header_line. rewrite encodable_app, encodable_of_string.
  rewrite encodable_join by done. simpl.
  apply forallb_forall. intros f Hin. apply in_map_iff in Hin as (i & <- & _).
  rewrite encodable_center. apply encodable_of_string.
Qed.

Lemma encodable_data_line c r :
  encodable (data_line c r) = negb (is_surrogate c) && forallb printable r.
Proof.
  unfold data_line.
  change (c :: of_string "  " ++ ?l) with ([c] ++ of_string "  " ++ l).
  rewrite !encodable_app, encodable_of_string, encodable_join by done.
  simpl. rewrite andb_true_r. f_equal.
  induction r as [|x r IH]; [done|]. csimpl. by rewrite encodable_fmt_cell, IH.
Qed.

Lemma py_print_ok line out :
  encodable line = true → py_print line out = (out ++ [line], Ok tt).
Proof. intros H. unfold py_print. by rewrite H. Qed.


(** *** The loop over the rows *)

(** Row [i] of the loop can be printed: its letter exists and is no
    surrogate, and its cells are printable. *)
Lemma row_letter_ok i :
  (N.of_nat i < max_printable_rows)%N →
  chr (65 + N.of_nat i) = Ok (65 + N.of_nat i)%N ∧
  is_surrogate (65 + N.of_nat i) = false.
Proof.
  unfold max_printable_rows. intros H. split.
  - apply chr_ok. lia.
  - apply encodable_below. lia.
Qed.

Lemma print_rows_ok n (m : list (list cell)) out :
  (N.of_nat (n + length m) ≤ max_printable_rows)%N →
  Forall (λ r, forallb printable r = true) m →
  print_rows (imap (λ i, pair (n + i)) m) out =
    (out ++ imap (λ i, data_line (65 + N.of_nat (n + i))) m, Ok tt).
Proof.
  revert n out. induction m as [|r m IH]; intros n out Hb Hm.
  - simpl. by rewrite app_nil_r.
  - rewrite !imap_cons. cbn [print_rows]. cbn [length] in Hb.
    apply Forall_cons in Hm as [Hr Hm].
    destruct (row_letter_ok (n + 0)) as [-> Hs]; [lia|].
    rewrite py_print_ok by (by rewrite encodable_data_line, Hs, Hr).
    rewrite (imap_ext _ (λ i, pair (S n + i))) by (intros; simpl; f_equal; lia).
    rewrite IH by (done || lia). rewrite <- app_assoc. do 2 f_equal. simpl. f_equal.
    apply imap_ext. intros. simpl. do 3 f_equal. lia.
Qed.

(** Whatever happens, the lines written are the first lines of the grid. *)
Lemma print_rows_prefix n (m : list (list cell)) out :
  ∃ k, (print_rows (imap (λ i, pair (n + i)) m) out).1 =
         out ++ take k (imap (λ i, data_line (65 + N.of_nat (n + i))) m).
Proof.
  revert n out. induction m as [|r m IH]; intros n out.
  - exists 0. simpl. by rewrite app_nil_r.
  - rewrite !imap_cons. cbn [print_rows].
    unfold chr. destruct (_ <? _)%N; [|exists 0; simpl; by rewrite app_nil_r].
    unfold py_print. destruct (encodable _);
      [|exists 0; simpl; by rewrite app_nil_r].
    rewrite (imap_ext _ (λ i, pair (S n + i))) by (intros; simpl; f_equal; lia).
    destruct (IH (S n) (out ++ [data_line (65 + N.of_nat (n + 0)) r])) as [k ->].
    exists (S k). rewrite <- app_assoc. f_equal. simpl. do 2 f_equal.
    apply imap_ext. intros. simpl. do 3 f_equal. lia.
Qed.


(** *** The whole method *)


Lemma matrix_printable self :
  (∀ w, w ∈ df self → printable (sample_id w) = true) →
  Forall (λ r, forallb printable r = true)
    (reshape (replicate (rows self) (cols self)) (sample_id <$> df self)).
Proof.
  intros H. apply (Forall_impl (Forall (λ x, printable x = true))).
  - apply Forall_reshape, Forall_fmap, Forall_forall. intros w Hw. by apply H.
  - intros r Hr. apply forallb_forall. intros x Hx.
    rewrite Forall_forall in Hr. by apply Hr, list_elem_of_In.
Qed.

Lemma print_matrix_ok self :
  length (df self) = rows self * cols self →
  (N.of_nat (rows self) ≤ max_printable_rows)%N →
  encodable (show_opt (plate_name self)) = true →
  encodable (show_opt (plate_id self)) = true →
  (∀ w, w ∈ df self → printable (sample_id w) = true) →
  print_matrix self = (grid_lines self, Ok tt).
Proof.
  intros Hlen Hb Hn Hi Hc. unfold print_matrix, np_reshape, grid_lines.
  rewrite decide_True by by rewrite length_fmap.
  rewrite !py_print_ok
    by (rewrite ?encodable_app, ?encodable_of_string, ?encodable_header; done).
  apply (print_rows_ok 0).
  - by rewrite length_reshape, length_replicate.
  - by apply matrix_printable.
Qed.

Lemma print_matrix_prefix self :
  (print_matrix self).1 `prefix_of` grid_lines self.
Proof.
  unfold print_matrix, grid_lines.
  destruct (np_reshape _ _ _) as [m|e] eqn:Hm; [|apply prefix_nil].
  unfold np_reshape in Hm. case_decide; [|done]. injection Hm as <-.
  unfold py_print at 1. destruct (encodable _); [|apply prefix_nil].
  unfold py_print at 1. destruct (encodable _);
    [|simpl; apply prefix_cons, prefix_nil].
  unfold py_print at 1. destruct (encodable _);
    [|simpl; do 2 apply prefix_cons; apply prefix_nil].
  destruct (print_rows_prefix 0
              (reshape (replicate (rows self) (cols self)) (sample_id <$> df self))
              ((([] ++ [of_string "Plate Name: " ++ show_opt (plate_name self)])
                 ++ [of_string "Plate ID: " ++ show_opt (plate_id self)])
                 ++ [header_line (cols self)])) as [k Hk].
  pose proof (prefix_app
    [of_string "Plate Name: " ++ show_opt (plate_name self);
     of_string "Plate ID: " ++ show_opt (plate_id self);
     header_line (cols self)] _ _
    (prefix_take (imap (λ i, data_line (65 + N.of_nat i))
       (reshape (replicate (rows self) (cols self)) (sample_id <$> df self)))
       k)) as Hpre.
  destruct Hpre as [rest Hrest]. exists rest. rewrite Hrest. f_equal.
  symmetry. exact Hk.
Qed.



Lemma placeholder_centered :
  of_string "    -     " = center 10 (of_string "-").
Proof. reflexivity. Qed.

Lemma center_short w s : len s ≤ w → length (center w s) = w.
Proof. intros H. rewrite length_center. lia. Qed.


(** ** Distinct well indexes *)

Lemma elem_of_column_major rows cols col r :
  (col, r) ∈ column_major rows cols ↔ 1 ≤ col ≤ cols ∧ r < rows.
Proof.
  unfold column_major. rewrite list_elem_of_bind. split.
  - intros (c & Hr & Hc). apply list_elem_of_fmap in Hr as (r' & [= -> ->] & Hr).
    apply elem_of_seq in Hr, Hc. lia.
  - intros [Hc Hr]. exists col. split.
    + apply list_elem_of_fmap. exists r. split; [done|]. apply elem_of_seq. lia.
    + apply elem_of_seq. lia.
Qed.

Lemma NoDup_column_major rows cols : NoDup (column_major rows cols).
Proof.
  induction cols as [|c IH]; [constructor|].
  rewrite column_major_S. apply NoDup_app. split_and!.
  - done.
  - intros [col r] Hin (r' & [= -> ->] & _)%list_elem_of_fmap.
    apply elem_of_column_major in Hin. lia.
  - apply NoDup_fmap_2; [|apply NoDup_seq]. by intros ?? [= ->].
Qed.

Lemma well_index_inj (p q : nat * nat) :
  (65 + N.of_nat p.2)%N :: str_int p.1 = (65 + N.of_nat q.2)%N :: str_int q.1 →
  p = q.
Proof.
  destruct p as [c r], q as [c' r']. simpl. intros [= Hr Hc%str_int_inj].
  f_equal; lia.
Qed.

Lemma post_init_no_samples rows cols pn pid d :
  base_df rows cols pn pid = Ok d →
  post_init rows cols pn pid SrcNone =
    ([of_string "No samples provided."], Ok (fresh rows cols pn pid SrcNone d)).
Proof.
  intros Hd. unfold post_init. rewrite Hd. simpl.
  rewrite (validate_uniform pn pid); [done|].
  intros w Hw. by eapply base_df_uniform.
Qed.

Lemma well_index_overwritten str right w :
  well_index (default (kept str w) (overwrite str w <$> head (matches right w)))
  = well_index w.
Proof.
  destruct (matches right w) as [|r ms]; simpl; [done|].
  unfold overwrite. by destruct (isna r.2).
Qed.

Lemma after_keeps_wells s self :
  (∀ t, s = SrcFrame t →
        ∀ w, w ∈ df self → length (matches (project t) w) ≤ 1) →
  length (df (after s self)) = length (df self) ∧
  well_index <$> df (after s self) = well_index <$> df self.
Proof.
  intros Huniq. unfold after. destruct s as [|d|t|v]; [done| | |done].
  - rewrite add_samples_dict. simpl. split; [apply length_fmap|].
    rewrite <- list_fmap_compose. apply list_fmap_ext. intros _ w _. simpl.
    unfold assign. by destruct (d !! well_index w).
  - destruct (add_samples_frame_cases t self) as [[-> _]|(e & -> & _)];
      [|done].
    simpl. rewrite joined_unique by by apply Huniq.
    split; [apply length_fmap|].
    rewrite <- list_fmap_compose. apply list_fmap_ext. intros _ w _.
    apply well_index_overwritten.
Qed.

(** ** Main results *)

(** C5, as amended: for every column count and every row count up to
    1114047 (so that each [chr(65 + row)] exists), the base frame of
    [__post_init__] has exactly [rows * cols] records with pairwise distinct
    well indexes, in column-major order: the record at position
    [j * rows + i] is the well of row index [i] and column number [j + 1],
    whose index is the row letter followed by the column number.
    Construction without samples returns the object holding this frame, and
    whenever construction returns an object, from [None], a dictionary, any
    other value, or a data frame in which no well matches more than one row,
    the object's frame has these [rows * cols] well indexes in this order.
    With more than 1114047 rows and at least one column, construction raises
    [ValueError] from [chr], whatever the samples. *)
Theorem C5_grid_is_column_major rows cols pn pid :
  ((N.of_nat rows ≤ max_rows)%N →
   ∃ d : DataFrame,
     base_df rows cols pn pid = Ok d ∧
     post_init rows cols pn pid SrcNone =
       ([of_string "No samples provided."],
        Ok (fresh rows cols pn pid SrcNone d)) ∧
     length d = rows * cols ∧
     NoDup (well_index <$> d) ∧
     (∀ j i, j < cols → i < rows →
        d !! (j * rows + i) = Some (well_at pn pid (j + 1) i)) ∧
     ∀ s p,
       (post_init rows cols pn pid s).2 = Ok p →
       (∀ t, s = SrcFrame t →
             ∀ w, w ∈ d → length (matches (project t) w) ≤ 1) →
       length (df p) = rows * cols ∧
       well_index <$> df p = well_index <$> d) ∧
  ((max_rows < N.of_nat rows)%N → 0 < cols →
   ∀ s, post_init rows cols pn pid s =
          ([], Raise (ValueError "chr() arg not in range(0x110000)"))).
Proof.
  split.
  - intros Hb. eexists. split; [by apply base_df_ok|]. split_and!.
    + apply post_init_no_samples. by apply base_df_ok.
    + by rewrite length_fmap, length_column_major.
    + rewrite <- list_fmap_compose.
      apply NoDup_fmap_2_strong; [|apply NoDup_column_major].
      intros p q _ _. apply well_index_inj.
    + intros j i Hj Hi.
      by rewrite list_lookup_fmap, lookup_column_major.
    + intros s p Hp Huniq. revert Hp. unfold post_init.
      rewrite base_df_ok by done.
      destruct (outcome (add_samples s _)) as [[]|e]; [|done].
      cbn [snd]. destruct (validate _); [|done]. rewrite bind_Ok.
      intros [= <-].
      destruct (after_keeps_wells s
                  (fresh rows cols pn pid s
                     ((λ p, well_at pn pid p.1 p.2) <$> column_major rows cols))
                  Huniq) as [Hlen Hidx].
      unfold after in Hlen, Hidx. cbn [df fresh] in Hlen, Hidx.
      split; [|exact Hidx].
      by rewrite Hlen, length_fmap, length_column_major.
  - intros Hb Hc s. unfold post_init. by rewrite base_df_raise.
Qed.

Lemma C5_grid_is_column_major_witness :
  (N.of_nat 8 ≤ max_rows)%N ∧
  (∃ d : DataFrame,
     base_df 8 12 None None = Ok d ∧
     post_init 8 12 None None SrcNone =
       ([of_string "No samples provided."],
        Ok (fresh 8 12 None None SrcNone d)) ∧
     length d = 8 * 12 ∧
     NoDup (well_index <$> d) ∧
     (∀ j i, j < 12 → i < 8 →
        d !! (j * 8 + i) = Some (well_at None None (j + 1) i)) ∧
     ∀ s p,
       (post_init 8 12 None None s).2 = Ok p →
       (∀ t, s = SrcFrame t →
             ∀ w, w ∈ d → length (matches (project t) w) ≤ 1) →
       length (df p) = 8 * 12 ∧
       well_index <$> df p = well_index <$> d) ∧
  (max_rows < N.of_nat (N.to_nat 1114048))%N ∧ 0 < 1 ∧
  post_init (N.to_nat 1114048) 1 None None (SrcDict (dict_of [("A1", "S1")]))
    = ([], Raise (ValueError "chr() arg not in range(0x110000)")).
Proof.
  assert (N.of_nat 8 ≤ max_rows)%N as Hb by (vm_compute; discriminate).
  assert (max_rows < N.of_nat (N.to_nat 1114048))%N as Hr
    by (rewrite N2Nat.id; reflexivity).
  assert (0 < 1) as Hc by lia.
  split_and!; [exact Hb| |exact Hr|exact Hc|].
  - exact (proj1 (C5_grid_is_column_major 8 12 None None) Hb).
  - exact (proj2 (C5_grid_is_column_major (N.to_nat 1114048) 1 None None)
             Hr Hc _).
Defined.

(** C5, counterexample: with 1114048 rows and one column the loop reaches
    [chr(1114112)], which raises, so no frame is produced at all. *)
Lemma C5_counterexample :
  base_df (N.to_nat 1114048) 1 None None =
    Raise (ValueError "chr() arg not in range(0x110000)") ∧
  post_init (N.to_nat 1114048) 1 None None SrcNone =
    ([], Raise (ValueError "chr() arg not in range(0x110000)")).
Proof.
  assert (base_df (N.to_nat 1114048) 1 None None =
            Raise (ValueError "chr() arg not in range(0x110000)")) as H.
  { apply base_df_raise; [|lia]. rewrite N2Nat.id. reflexivity. }
  split; [exact H|]. unfold post_init. rewrite H. reflexivity.
Qed.

(** C10: whenever grid generation and the initial sample assignment
    complete, both consistency checks pass, so [__post_init__] never raises
    "Plate name must be consistent across all wells" nor its plate-id
    analogue.  This holds for [microplate/microplate.py] and for the
    single-file variant alike. *)
Theorem C10_consistency_check_unreachable rows cols pn pid s :
  (∀ d, base_df rows cols pn pid = Ok d →
        validate (df (self_after (add_samples s (fresh rows cols pn pid s d))))
        = Ok tt) ∧
  (post_init rows cols pn pid s).2 ≠ Raise name_error ∧
  (post_init rows cols pn pid s).2 ≠ Raise id_error ∧
  (∀ d d', base_df rows cols pn pid = Ok d →
           Legacy.fill_samples s d = Ok d' → validate d' = Ok tt) ∧
  Legacy.post_init rows cols pn pid s ≠ Raise name_error ∧
  Legacy.post_init rows cols pn pid s ≠ Raise id_error.
Proof.
  assert (∀ d, base_df rows cols pn pid = Ok d →
            validate (df (self_after (add_samples s (fresh rows cols pn pid s d))))
            = Ok tt) as Hnew.
  { intros d Hd. apply (validate_uniform pn pid).
    apply add_samples_uniform. intros w Hw. by eapply base_df_uniform. }
  assert (∀ d d', base_df rows cols pn pid = Ok d →
            Legacy.fill_samples s d = Ok d' → validate d' = Ok tt) as Hold.
  { intros d d' Hd Hf. apply (validate_uniform pn pid).
    eapply fill_samples_uniform; [done|]. intros w Hw. by eapply base_df_uniform. }
  assert (∀ e, (post_init rows cols pn pid s).2 = Raise e →
               e ≠ name_error ∧ e ≠ id_error) as Hp.
  { intros e. unfold post_init.
    destruct (base_df rows cols pn pid) as [d|e'] eqn:Hd; simpl.
    - destruct (outcome (add_samples s _)) as [[]|e'] eqn:Ho; simpl.
      + by rewrite Hnew.
      + intros [= <-].
        by destruct (add_samples_raise_inv _ _ _ Ho) as [-> | ->].
    - intros [= <-]. by destruct (base_df_raise_inv _ _ _ _ _ Hd) as [-> | ->]. }
  assert (∀ e, Legacy.post_init rows cols pn pid s = Raise e →
               e ≠ name_error ∧ e ≠ id_error) as Hl.
  { intros e. unfold Legacy.post_init.
    destruct (base_df rows cols pn pid) as [d|e'] eqn:Hd.
    - rewrite bind_Ok. destruct (Legacy.fill_samples s d) as [d'|e'] eqn:Hf.
      + rewrite bind_Ok, (Hold d d') by done. by rewrite bind_Ok.
      + rewrite bind_Raise. intros [= <-].
        destruct s as [|m|t|v]; simpl in Hf; try done.
        * destruct (_ && _); [destruct (key_mismatch d t); [|done]|];
            by injection Hf as <-.
        * by injection Hf as <-.
    - rewrite bind_Raise. intros [= <-].
      by destruct (base_df_raise_inv _ _ _ _ _ Hd) as [-> | ->]. }
  split_and!; try done.
  - intros H. by destruct (Hp _ H).
  - intros H. by destruct (Hp _ H).
  - intros H. by destruct (Hl _ H).
  - intros H. by destruct (Hl _ H).
Qed.

Lemma example_plate_constructed rows cols :
  (N.of_nat rows ≤ max_rows)%N →
  post_init rows cols (Some (of_string "P1")) (Some (of_string "ID1")) SrcNone
  = ([of_string "No samples provided."], Ok (example_plate rows cols)).
Proof. intros Hb. apply post_init_no_samples. by apply base_df_ok. Qed.

(** C8: with an absent source [add_samples] returns normally, after printing
    its notice, and the object (so every [sample_id]) is what it was. *)
Theorem C8_absent_source_is_noop self :
  outcome (add_samples SrcNone self) = Ok tt ∧
  stdout (add_samples SrcNone self) = [of_string "No samples provided."] ∧
  after SrcNone self = self ∧
  ∀ i, sample_id <$> df (after SrcNone self) !! i = sample_id <$> df self !! i.
Proof. done. Qed.

(** C7, as amended: given a value that is neither absent, a dictionary nor a
    data frame, [add_samples] raises nothing: it prints "Invalid input type.
    Expected a dictionary or DataFrame.", returns, and leaves the object as
    it was. *)
Theorem C7_other_source_is_reported self v :
  outcome (add_samples (SrcOther v) self) = Ok tt ∧
  stdout (add_samples (SrcOther v) self) =
    [of_string "Invalid input type. Expected a dictionary or DataFrame."] ∧
  after (SrcOther v) self = self.
Proof. done. Qed.

(** C7, counterexample: passing the integer 42 to a one-well plate returns
    normally; no exception is raised. *)
Lemma C7_counterexample :
  outcome (add_samples (SrcOther (OInt 42)) (example_plate 1 1)) = Ok tt ∧
  ¬ ∃ e, outcome (add_samples (SrcOther (OInt 42)) (example_plate 1 1)) = Raise e.
Proof. split; [done|]. by intros [e He]. Qed.

(** C6: a data frame that lacks the [well_index] column or the [sample_id]
    column makes [add_samples] raise the [ValueError] "DataFrame must have
    'well_index' and 'sample_id' columns." with the object, and so every
    well record, exactly as before. *)
Theorem C6_missing_column_raises_unmodified self t :
  has_column "well_index" t = false ∨ has_column "sample_id" t = false →
  outcome (add_samples (SrcFrame t) self) =
    Raise (ValueError
      "DataFrame must have 'well_index' and 'sample_id' columns.") ∧
  after (SrcFrame t) self = self ∧
  df (after (SrcFrame t) self) = df self.
Proof.
  intros H. unfold after. by rewrite (add_samples_frame_raise t self H).
Qed.

Lemma C6_missing_column_raises_unmodified_witness :
  let t : Table :=
    <[of_string "well_index" := ObjectCol [Str (of_string "A1")]]> ∅ in
  let self := after (SrcDict (dict_of [("A1", "S9")])) (example_plate 2 2) in
  (has_column "well_index" t = false ∨ has_column "sample_id" t = false) ∧
  outcome (add_samples (SrcFrame t) self) =
    Raise (ValueError
      "DataFrame must have 'well_index' and 'sample_id' columns.") ∧
  after (SrcFrame t) self = self ∧
  df (after (SrcFrame t) self) = df self.
Proof.
  intros t self.
  assert (has_column "well_index" t = false ∨ has_column "sample_id" t = false)
    as H by (right; vm_compute; reflexivity).
  split; [exact H|]. exact (C6_missing_column_raises_unmodified self t H).
Defined.

(** C3: with a dictionary, [add_samples] returns normally and changes the
    frame row by row: a row whose well index is a key gets the mapped value
    as its [sample_id], every other row keeps its [sample_id]; no other
    column changes.  Hence assigning {"A1": "S1"} and then {"A1": "S2"}
    leaves "S2" in every row of well A1. *)
Theorem C3_mapping_assigns_keys_only self d :
  outcome (add_samples (SrcDict d) self) = Ok tt ∧
  length (df (after (SrcDict d) self)) = length (df self) ∧
  (∀ i w, df self !! i = Some w →
     df (after (SrcDict d) self) !! i =
       Some (set_sample_id
               (match d !! well_index w with
                | Some v => Str v
                | None => sample_id w
                end) w)) ∧
  (∀ i w, df self !! i = Some w → well_index w = of_string "A1" →
     sample_id <$> df (after (SrcDict (dict_of [("A1", "S2")]))
                         (after (SrcDict (dict_of [("A1", "S1")])) self)) !! i
     = Some (Str (of_string "S2"))).
Proof.
  assert (∀ d self i w, df self !! i = Some w →
     df (after (SrcDict d) self) !! i =
       Some (set_sample_id
               (match d !! well_index w with
                | Some v => Str v
                | None => sample_id w
                end) w)) as Hrow.
  { clear. intros d self i w Hw. unfold after. rewrite add_samples_dict. simpl.
    rewrite list_lookup_fmap, Hw. simpl. f_equal. unfold assign.
    destruct (d !! well_index w); [done|]. by rewrite set_sample_id_same. }
  split_and!.
  - done.
  - unfold after. rewrite add_samples_dict. simpl. apply length_fmap.
  - apply Hrow.
  - intros i w Hw Hidx.
    rewrite (Hrow _ _ i _ (Hrow _ _ i w Hw)). simpl. rewrite Hidx.
    reflexivity.
Qed.

(** ** The left join, declaratively *)

Lemma elem_of_matches right w k v :
  (k, v) ∈ matches right w ↔ k = Str (well_index w) ∧ (k, v) ∈ right.
Proof. unfold matches. by rewrite list_elem_of_filter. Qed.

Lemma matches_nil right w :
  matches right w = [] ↔ ∀ v, (Str (well_index w), v) ∉ right.
Proof.
  split.
  - intros Hm v Hv.
    assert ((Str (well_index w), v) ∈ matches right w) as Hin
      by by apply elem_of_matches.
    rewrite Hm in Hin. by apply not_elem_of_nil in Hin.
  - intros Hno. destruct (matches right w) as [|[k v] ms] eqn:Hm; [done|].
    assert ((k, v) ∈ matches right w) as Hin by (rewrite Hm; by left).
    apply elem_of_matches in Hin as [-> Hin]. by destruct (Hno v).
Qed.

Lemma elem_of_joined str right w w' :
  w' ∈ joined str right w ↔
    (∀ v, (Str (well_index w), v) ∉ right) ∧ w' = kept str w ∨
    ∃ v, (Str (well_index w), v) ∈ right ∧
         w' = if isna v then kept str w else set_sample_id v w.
Proof.
  unfold joined. destruct (matches right w) as [|r ms] eqn:Hm.
  - rewrite list_elem_of_singleton. split.
    + intros ->. left. split; [by apply matches_nil|done].
    + intros [[_ ->]|(v & Hv & _)]; [done|].
      by destruct (proj1 (matches_nil right w) Hm v).
  - rewrite <- Hm. rewrite list_elem_of_fmap. split.
    + intros ([k v] & -> & Hin). right.
      apply elem_of_matches in Hin as [-> Hin]. by exists v.
    + intros [[Hno _]|(v & Hv & ->)].
      * apply (proj2 (matches_nil right w)) in Hno. by rewrite Hno in Hm.
      * exists (Str (well_index w), v). split; [done|]. by apply elem_of_matches.
Qed.

Lemma matches_single right w v :
  length (matches right w) ≤ 1 → (Str (well_index w), v) ∈ right →
  matches right w = [(Str (well_index w), v)].
Proof.
  intros Hlen Hv.
  assert ((Str (well_index w), v) ∈ matches right w) as Hin
    by by apply elem_of_matches.
  destruct (matches right w) as [|r [|??]]; simpl in Hlen; [|f_equal|lia].
  - by apply not_elem_of_nil in Hin.
  - by apply list_elem_of_singleton in Hin.
Qed.

Lemma value_kept str w : value (sample_id (kept str w)) = value (sample_id w).
Proof. unfold kept, as_dtype. simpl. by destruct str, (sample_id w). Qed.

Lemma kept_unset w : sample_id w = PyNone → sample_id (kept true w) = NaN.
Proof. unfold kept, as_dtype. simpl. by intros ->. Qed.

(** C2, as amended: with a data frame that has both columns and whose
    [well_index] column pandas accepts as a merge key for the plate's
    string indexes, [add_samples] returns normally and left-joins the plate
    rows with the source rows on the well index.  The rows afterwards are
    exactly: each plate row without a matching source row, kept; and, for
    each plate row and each source row matching it, the plate row with the
    source's [sample_id] when that is non-null and the plate row kept when
    it is null.  A kept row keeps its sample identifier if it has one and
    stays unset otherwise; it is the very same row unless the source's
    [sample_id] column has dtype str, in which case an unset [None] becomes
    NaN.  When no plate row matches more than one source row the join is an
    update in place: the frame keeps its length, a row whose match is
    non-null holds that value, a row whose match is null and an unmatched
    row are kept. *)
Theorem C2_table_left_join self t :
  has_column "well_index" t = true → has_column "sample_id" t = true →
  key_mismatch (df self) t = false →
  outcome (add_samples (SrcFrame t) self) = Ok tt ∧
  (∀ w', w' ∈ df (after (SrcFrame t) self) ↔
     ∃ w, w ∈ df self ∧
       ((∀ v, (Str (well_index w), v) ∉ project t) ∧
        w' = kept (str_samples t) w ∨
        ∃ v, (Str (well_index w), v) ∈ project t ∧
             w' = if isna v then kept (str_samples t) w
                  else set_sample_id v w)) ∧
  ((∀ w, w ∈ df self → length (matches (project t) w) ≤ 1) →
   length (df (after (SrcFrame t) self)) = length (df self) ∧
   ∀ i w, df self !! i = Some w →
     (∀ v, (Str (well_index w), v) ∈ project t →
        df (after (SrcFrame t) self) !! i =
          Some (if isna v then kept (str_samples t) w
                else set_sample_id v w)) ∧
     ((∀ v, (Str (well_index w), v) ∉ project t) →
        df (after (SrcFrame t) self) !! i = Some (kept (str_samples t) w))) ∧
  (∀ w, value (sample_id (kept (str_samples t) w)) = value (sample_id w) ∧
        set_sample_id (sample_id w) (kept (str_samples t) w) = w) ∧
  (str_samples t = false → ∀ w, kept (str_samples t) w = w) ∧
  (str_samples t = true →
   ∀ w, sample_id w = PyNone → sample_id (kept (str_samples t) w) = NaN).
Proof.
  intros H1 H2 H3. unfold after. rewrite (add_samples_frame t self H1 H2 H3).
  simpl. split_and!; [done| | | | |].
  - intros w'. rewrite list_elem_of_bind. split.
    + intros (w & Hj & Hw). exists w. split; [done|]. by apply elem_of_joined.
    + intros (w & Hw & Hj). exists w. split; [|done]. by apply elem_of_joined.
  - intros Huniq. rewrite joined_unique by done. split; [apply length_fmap|].
    intros i w Hw. rewrite list_lookup_fmap, Hw. simpl. split.
    + intros v Hv.
      rewrite (matches_single _ _ v) by (try apply Huniq; try done;
        by eapply list_elem_of_lookup_2).
      done.
    + intros Hno. apply (proj2 (matches_nil _ w)) in Hno. by rewrite Hno.
  - intros w. split; [apply value_kept|]. by destruct w.
  - intros -> w. apply kept_object.
  - intros -> w. apply kept_unset.
Qed.

(** The null-preserving merge of the spec: B2 holds "S9"; a table with a
    null row for B2 and the row (A1, "S1") leaves "S9" at B2 and puts "S1"
    at A1. *)
Lemma C2_table_left_join_witness :
  let self := after (SrcDict (dict_of [("B2", "S9")])) (example_plate 2 2) in
  let t := table_of [Str (of_string "B2"); Str (of_string "A1")]
                    [NaN; Str (of_string "S1")] in
  has_column "well_index" t = true ∧ has_column "sample_id" t = true ∧
  key_mismatch (df self) t = false ∧
  outcome (add_samples (SrcFrame t) self) = Ok tt ∧
  length (df (after (SrcFrame t) self)) = 4 ∧
  sample_id <$> df (after (SrcFrame t) self) !! 0 = Some (Str (of_string "S1")) ∧
  sample_id <$> df (after (SrcFrame t) self) !! 3 = Some (Str (of_string "S9")).
Proof.
  intros self t.
  destruct (C2_table_left_join self t eq_refl eq_refl eq_refl)
    as (Hout & _ & Hpos & _).
  destruct Hpos as [Hlen Hrow].
  { intros w Hw. vm_compute in Hw.
    repeat (apply elem_of_cons in Hw as [-> | Hw]); try (vm_compute; lia).
    by apply not_elem_of_nil in Hw. }
  split_and!; [reflexivity|reflexivity|reflexivity|exact Hout|by rewrite Hlen| |].
  - destruct (Hrow 0 _ eq_refl) as [Hset _].
    rewrite (Hset (Str (of_string "S1"))); [done|].
    vm_compute. apply list_elem_of_In. right. by left.
  - destruct (Hrow 3 _ eq_refl) as [Hset _].
    rewrite (Hset NaN); [done|].
    vm_compute. apply list_elem_of_In. by left.
Defined.

(** C2, counterexamples: a data frame with both columns whose [well_index]
    column is float64 (one NaN key) makes the merge, and so [add_samples],
    raise [ValueError] on the one-well plate; and a data frame of dtype str
    that names A1 only turns the unset [None] of B1, which no row matches,
    into NaN. *)
Lemma C2_counterexample :
  (let t := float_key_table 1 [Str (of_string "S8")] in
   has_column "well_index" t = true ∧ has_column "sample_id" t = true ∧
   outcome (add_samples (SrcFrame t) (example_plate 1 1)) = Raise merge_error) ∧
  (let t := str_table_of [Some (of_string "A1")] [Some (of_string "S1")] in
   has_column "well_index" t = true ∧ has_column "sample_id" t = true ∧
   outcome (add_samples (SrcFrame t) (example_plate 2 1)) = Ok tt ∧
   sample_id <$> df (example_plate 2 1) = [PyNone; PyNone] ∧
   sample_id <$> df (after (SrcFrame t) (example_plate 2 1))
     = [Str (of_string "S1"); NaN]).
Proof. split; split_and!; by vm_compute. Qed.

(** ** Record count and order *)

(** Outside the duplicate-key case [add_samples] keeps the number of records
    and the sequence of well indexes: this holds for an absent source, a
    dictionary, any other value, and for a data frame in which no plate row
    matches more than one source row. *)
Theorem add_samples_keeps_wells s self :
  (∀ t, s = SrcFrame t →
        ∀ w, w ∈ df self → length (matches (project t) w) ≤ 1) →
  length (df (after s self)) = length (df self) ∧
  well_index <$> df (after s self) = well_index <$> df self.
Proof. apply after_keeps_wells. Qed.

Lemma add_samples_keeps_wells_witness :
  let self := example_plate 2 2 in
  let s := SrcFrame (table_of [Str (of_string "B2"); Str (of_string "Z9")]
                              [Str (of_string "S1"); NaN]) in
  (∀ t, s = SrcFrame t →
        ∀ w, w ∈ df self → length (matches (project t) w) ≤ 1) ∧
  length (df (after s self)) = length (df self) ∧
  well_index <$> df (after s self) = well_index <$> df self.
Proof.
  intros self s.
  assert (∀ t, s = SrcFrame t →
            ∀ w, w ∈ df self → length (matches (project t) w) ≤ 1) as H.
  { intros t [= <-] w Hw. vm_compute in Hw.
    repeat (apply elem_of_cons in Hw as [-> | Hw]); try (vm_compute; lia).
    by apply not_elem_of_nil in Hw. }
  split; [exact H|]. exact (add_samples_keeps_wells s self H).
Defined.

(** C4, at the failing input: on the one-well plate, a table with two rows
    for A1 is accepted, and afterwards the frame has two records, both
    indexed A1, where it had one; [print_matrix] then raises because the
    frame no longer has [rows * cols] records. *)
Theorem C4_duplicate_keys_add_records :
  let self := example_plate 1 1 in
  let t := table_of [Str (of_string "A1"); Str (of_string "A1")]
                    [Str (of_string "S1"); Str (of_string "S2")] in
  post_init 1 1 (Some (of_string "P1")) (Some (of_string "ID1")) SrcNone
    = ([of_string "No samples provided."], Ok self) ∧
  has_column "well_index" t = true ∧ has_column "sample_id" t = true ∧
  outcome (add_samples (SrcFrame t) self) = Ok tt ∧
  well_index <$> df self = [of_string "A1"] ∧
  well_index <$> df (after (SrcFrame t) self)
    = [of_string "A1"; of_string "A1"] ∧
  sample_id <$> df (after (SrcFrame t) self)
    = [Str (of_string "S1"); Str (of_string "S2")] ∧
  print_matrix (after (SrcFrame t) self)
    = ([], Raise (ValueError "cannot reshape array")).
Proof. intros self t. split_and!; by vm_compute. Qed.

(** ** What [print_matrix] shows where *)


(** C1, at the failing input: on the 8 x 12 plate with "S002" assigned to
    well B1, the record of B1 (row B, column 1) holds "S002" and no other
    record holds a sample, yet [print_matrix] prints "S002" in row A under
    column 2 and prints only placeholders in row B. *)
Theorem C1_matrix_misplaces_wells :
  let self := after (SrcDict (dict_of [("B1", "S002")])) (example_plate 8 12) in
  (∃ w, df self !! 1 = Some w ∧
        well_index w = of_string "B1" ∧ row w = of_string "B" ∧
        column w = 1 ∧ sample_id w = Str (of_string "S002")) ∧
  sample_id <$> df self
    = PyNone :: Str (of_string "S002") :: replicate 94 PyNone ∧
  (print_matrix self).2 = Ok tt ∧
  (print_matrix self).1 !! 3 =
    Some (data_line 65 (PyNone :: Str (of_string "S002") :: replicate 10 PyNone)) ∧
  (print_matrix self).1 !! 4 = Some (data_line 66 (replicate 12 PyNone)).
Proof.
  intros self. split_and!.
  - eexists. split; [by vm_compute|]. by vm_compute.
  - by vm_compute.
  - by vm_compute.
  - by vm_compute.
  - by vm_compute.
Qed.

(** The scenario of the spec: only A1 and H12 are assigned.  These two
    wells are the first and the last record, which the reshape leaves in
    place. *)
Lemma scenario_corner_wells :
  let self := after (SrcDict (dict_of [("A1", "S001"); ("H12", "S096")]))
                    (example_plate 8 12) in
  (print_matrix self).2 = Ok tt ∧
  (print_matrix self).1 !! 3 =
    Some (data_line 65 (Str (of_string "S001") :: replicate 11 PyNone)) ∧
  (∀ i, 1 ≤ i < 7 →
     (print_matrix self).1 !! (3 + i) =
       Some (data_line (65 + N.of_nat i) (replicate 12 PyNone))) ∧
  (print_matrix self).1 !! 10 =
    Some (data_line 72 (replicate 11 PyNone ++ [Str (of_string "S096")])).
Proof.
  intros self. split_and!; try by vm_compute.
  intros i Hi.
  do 7 (destruct i as [|i]; [first [lia | by vm_compute]|]). lia.
Qed.




(** * Further properties *)

(** ** Dictionaries compose *)

Lemma set_df_set_df d d' self : set_df d (set_df d' self) = set_df d self.
Proof. reflexivity. Qed.

Lemma after_dict d self :
  after (SrcDict d) self = set_df (assign d <$> df self) self.
Proof. unfold after. by rewrite add_samples_dict. Qed.

Lemma assign_assign d1 d2 w :
  assign d2 (assign d1 w) = assign (d2 ∪ d1) w.
Proof.
  unfold assign at 2. unfold assign at 2.
  destruct (d2 !! well_index w) as [v2|] eqn:H2.
  - rewrite (lookup_union_Some_l d2 d1 _ v2 H2).
    unfold assign. destruct (d1 !! well_index w); simpl; by rewrite H2.
  - rewrite lookup_union_r by done.
    unfold assign. destruct (d1 !! well_index w); simpl; by rewrite H2.
Qed.

(** Assigning from one dictionary and then from another is assigning once
    from their union in which the later dictionary wins; in particular
    assigning the same dictionary twice is assigning it once. *)
Theorem dict_assignments_compose self d1 d2 :
  after (SrcDict d2) (after (SrcDict d1) self) = after (SrcDict (d2 ∪ d1)) self ∧
  after (SrcDict d1) (after (SrcDict d1) self) = after (SrcDict d1) self.
Proof.
  assert (∀ a b, after (SrcDict b) (after (SrcDict a) self)
                 = after (SrcDict (b ∪ a)) self) as H.
  { intros a b. rewrite !after_dict. simpl. rewrite set_df_set_df. f_equal.
    rewrite <- list_fmap_compose. apply list_fmap_ext. intros _ w _.
    apply assign_assign. }
  split; [apply H|]. by rewrite H, (idemp_L (∪) d1).
Qed.

(** A key that is the well index of no record is ignored: no error, no new
    record, no change. *)
Theorem dict_unknown_key_ignored self d k v :
  (∀ w, w ∈ df self → well_index w ≠ k) →
  after (SrcDict (<[k:=v]> d)) self = after (SrcDict d) self.
Proof.
  intros Hk. rewrite !after_dict. f_equal.
  apply list_fmap_ext. intros _ w Hw%list_elem_of_lookup_2.
  unfold assign. by rewrite lookup_insert_ne by (intros ->; by apply (Hk w)).
Qed.

Lemma dict_unknown_key_ignored_witness :
  let self := example_plate 2 2 in
  let d := dict_of [("A1", "S1")] in
  (∀ w, w ∈ df self → well_index w ≠ of_string "C7") ∧
  after (SrcDict (<[of_string "C7" := of_string "S7"]> d)) self
    = after (SrcDict d) self.
Proof.
  intros self d.
  assert (∀ w, w ∈ df self → well_index w ≠ of_string "C7") as H.
  { intros w Hw. vm_compute in Hw.
    repeat (apply elem_of_cons in Hw as [-> | Hw]); try done.
    by apply not_elem_of_nil in Hw. }
  split; [exact H|]. exact (dict_unknown_key_ignored self d _ _ H).
Defined.

(** ** Tables: what the left merge emits *)

Lemma length_joined str right w :
  length (joined str right w) = emitted right w.
Proof.
  unfold joined, emitted. destruct (matches right w) as [|r ms]; [done|].
  rewrite length_fmap. simpl. lia.
Qed.

Lemma length_bind_sum {A B} (f : A → list B) l :
  length (l ≫= f) = sum_list (length ∘ f <$> l).
Proof.
  induction l as [|x l IH]; [done|].
  rewrite bind_cons, length_app, IH. done.
Qed.

Lemma sum_emitted right (l : DataFrame) :
  length l ≤ sum_list (emitted right <$> l) ∧
  (sum_list (emitted right <$> l) = length l ↔
   ∀ w, w ∈ l → length (matches right w) ≤ 1).
Proof.
  induction l as [|w l [IHle IHeq]]; csimpl.
  - split; [lia|]. split; [|done]. intros _ w Hw. by apply not_elem_of_nil in Hw.
  - assert (1 ≤ emitted right w) as H1 by (unfold emitted; lia).
    split; [lia|]. split.
    + intros Hs w' [->|Hw']%elem_of_cons.
      * unfold emitted in *. lia.
      * apply IHeq; [lia|done].
    + intros Hall.
      assert (emitted right w = 1) as ->.
      { unfold emitted. pose proof (Hall w ltac:(by left)). lia. }
      rewrite (proj2 IHeq); [done|]. intros w' Hw'. apply Hall. by right.
Qed.

(** With a data frame that has both columns, every plate row is emitted once
    per matching source row and once when nothing matches.  So the frame
    never shrinks, and it keeps its length exactly when no plate row matches
    more than one source row. *)
Theorem table_record_count self t :
  has_column "well_index" t = true → has_column "sample_id" t = true →
  length (df (after (SrcFrame t) self))
    = sum_list (emitted (project t) <$> df self) ∧
  length (df self) ≤ length (df (after (SrcFrame t) self)) ∧
  (length (df (after (SrcFrame t) self)) = length (df self) ↔
   ∀ w, w ∈ df self → length (matches (project t) w) ≤ 1).
Proof.
  intros H1 H2. unfold after.
  destruct (key_mismatch (df self) t) eqn:H3.
  - rewrite add_samples_frame_mismatch by done. simpl.
    assert (∀ w, matches (project t) w = []) as Hno
      by (intros w; by eapply key_mismatch_no_match).
    assert (sum_list (emitted (project t) <$> df self) = length (df self)) as ->.
    { apply sum_emitted. intros w _. rewrite Hno. simpl. lia. }
    split_and!; [done|done|]. split; [|done]. intros _ w _. rewrite Hno. simpl. lia.
  - rewrite add_samples_frame by done. simpl.
    assert (length (df self ≫= joined (str_samples t) (project t))
            = sum_list (emitted (project t) <$> df self)) as ->.
    { rewrite length_bind_sum. f_equal. apply list_fmap_ext. intros _ w _.
      apply length_joined. }
    split; [done|]. apply sum_emitted.
Qed.

Lemma table_record_count_witness :
  let self := example_plate 2 2 in
  let t := table_of [Str (of_string "A1"); Str (of_string "A1");
                     Str (of_string "A1"); Str (of_string "B2")]
                    [Str (of_string "S1"); NaN; Str (of_string "S3");
                     Str (of_string "S4")] in
  has_column "well_index" t = true ∧ has_column "sample_id" t = true ∧
  length (df (after (SrcFrame t) self)) = 6.
Proof.
  intros self t.
  destruct (table_record_count self t eq_refl eq_refl) as (Hsum & _ & _).
  split_and!; [reflexivity|reflexivity|]. rewrite Hsum. reflexivity.
Defined.

Lemma set_df_same self : set_df (df self) self = self.
Proof. by destruct self. Qed.

Lemma same_up_to_null_kept str w : same_up_to_null (kept str w) w.
Proof. unfold same_up_to_null. split_and!; try done. apply value_kept. Qed.

Lemma same_up_to_null_refl w : same_up_to_null w w.
Proof. by unfold same_up_to_null. Qed.

Lemma bind_singleton_fmap {A B} (f : A → list B) (g : A → B) (l : list A) :
  (∀ x, x ∈ l → f x = [g x]) → l ≫= f = g <$> l.
Proof.
  induction l as [|x l IH]; intros H; [done|].
  rewrite bind_cons, (H x) by by left. csimpl. f_equal.
  apply IH. intros y Hy. apply H. by right.
Qed.

Lemma Forall2_fmap_same {A B} (R : B → B → Prop) (f g : A → B) l :
  (∀ x, x ∈ l → R (f x) (g x)) → Forall2 R (f <$> l) (g <$> l).
Proof.
  induction l as [|x l IH]; intros H; csimpl; constructor.
  - apply H. by left.
  - apply IH. intros y Hy. apply H. by right.
Qed.

(** A data frame none of whose rows carries the well index of a plate row,
    an empty one in particular, adds no record and changes no sample
    identifier: every row keeps all its columns, the [sample_id] up to the
    kind of null.  Unless the frame's [sample_id] column has dtype str the
    object is exactly what it was; with dtype str, when the call returns,
    every unset [None] has become NaN. *)
Theorem table_without_matches_keeps_samples self t :
  (∀ w v, w ∈ df self → (Str (well_index w), v) ∉ project t) →
  Forall2 same_up_to_null (df (after (SrcFrame t) self)) (df self) ∧
  (str_samples t = false → after (SrcFrame t) self = self) ∧
  (str_samples t = true → outcome (add_samples (SrcFrame t) self) = Ok tt →
   ∀ w, w ∈ df (after (SrcFrame t) self) → sample_id w ≠ PyNone).
Proof.
  intros Hno.
  assert (∀ w, w ∈ df self →
            joined (str_samples t) (project t) w = [kept (str_samples t) w])
    as Hj.
  { intros w Hw. unfold joined.
    by rewrite (proj2 (matches_nil (project t) w) (λ v, Hno w v Hw)). }
  unfold after.
  destruct (add_samples_frame_cases t self) as [[-> _]|(e & -> & _)]; simpl.
  - rewrite (bind_singleton_fmap _ _ _ Hj). split_and!.
    + rewrite <- (list_fmap_id (df self)) at 2. apply Forall2_fmap_same.
      intros w _. apply same_up_to_null_kept.
    + intros ->.
      assert (kept false <$> df self = df self) as ->.
      { rewrite <- (list_fmap_id (df self)) at 2. apply list_fmap_ext.
        intros _ w _. apply kept_object. }
      apply set_df_same.
    + intros -> _ w' (w & -> & _)%list_elem_of_fmap.
      unfold kept, as_dtype. simpl. by destruct (sample_id w).
  - split_and!; [|done|done].
    rewrite <- (list_fmap_id (df self)). apply Forall2_fmap_same.
    intros w _. apply same_up_to_null_refl.
Qed.

Lemma table_without_matches_keeps_samples_witness :
  let self := after (SrcDict (dict_of [("A1", "S1")])) (example_plate 2 1) in
  let t := str_table_of [Some (of_string "C3"); None]
                        [Some (of_string "S9"); Some (of_string "S8")] in
  (∀ w v, w ∈ df self → (Str (well_index w), v) ∉ project t) ∧
  Forall2 same_up_to_null (df (after (SrcFrame t) self)) (df self) ∧
  sample_id <$> df self = [Str (of_string "S1"); PyNone] ∧
  sample_id <$> df (after (SrcFrame t) self) = [Str (of_string "S1"); NaN].
Proof.
  intros self t.
  assert (∀ w v, w ∈ df self → (Str (well_index w), v) ∉ project t) as H.
  { intros w v Hw Hin. vm_compute in Hw, Hin.
    repeat (apply elem_of_cons in Hin as [Hin | Hin]);
      [| |by apply not_elem_of_nil in Hin];
      repeat (apply elem_of_cons in Hw as [-> | Hw]); try done;
      by apply not_elem_of_nil in Hw. }
  split; [exact H|].
  split; [exact (proj1 (table_without_matches_keeps_samples self t H))|].
  split; by vm_compute.
Defined.

Lemma matches_ext right w w' :
  well_index w = well_index w' → matches right w = matches right w'.
Proof. unfold matches. by intros ->. Qed.

Lemma kept_kept str w : kept str (kept str w) = kept str w.
Proof.
  destruct w as [? ? ? ? ? []]; by destruct str.
Qed.

Lemma overwrite_overwrite str w r :
  overwrite str (overwrite str w r) r = overwrite str w r.
Proof.
  unfold overwrite. destruct (isna r.2) eqn:H; [apply kept_kept|done].
Qed.

Lemma matches_overwritten str right w :
  matches right
    (default (kept str w) (overwrite str w <$> head (matches right w)))
  = matches right w.
Proof. apply matches_ext, well_index_overwritten. Qed.

(** When no plate row matches more than one source row, applying the same
    data frame a second time changes nothing. *)
Theorem table_assignment_idempotent self t :
  (∀ w, w ∈ df self → length (matches (project t) w) ≤ 1) →
  after (SrcFrame t) (after (SrcFrame t) self) = after (SrcFrame t) self.
Proof.
  intros Huniq. unfold after.
  destruct (add_samples_frame_cases t self)
    as [(Heq & H1 & H2 & H3)|(e & Heq & _)];
    [|rewrite Heq; cbn [self_after]; by rewrite Heq].
  rewrite Heq. cbn [self_after].
  rewrite (joined_unique _ _ (df self)) by done.
  rewrite add_samples_frame; [|done|done|].
  2: { revert H3. unfold key_mismatch. cbn [df set_df].
       destruct (t !! of_string "well_index") as [[| |]|]; try done.
       by destruct (df self). }
  cbn [self_after df set_df]. rewrite set_df_set_df. f_equal.
  rewrite joined_unique.
  2: { intros w' (w & -> & Hw)%list_elem_of_fmap.
       rewrite matches_overwritten. by apply Huniq. }
  rewrite <- list_fmap_compose. apply list_fmap_ext. intros _ w _. simpl.
  rewrite matches_overwritten.
  destruct (matches (project t) w) as [|r ms]; simpl; [apply kept_kept|].
  apply overwrite_overwrite.
Qed.

Lemma table_assignment_idempotent_witness :
  let self := example_plate 2 2 in
  let t := table_of [Str (of_string "B1"); Str (of_string "A2")]
                    [Str (of_string "S1"); NaN] in
  (∀ w, w ∈ df self → length (matches (project t) w) ≤ 1) ∧
  after (SrcFrame t) (after (SrcFrame t) self) = after (SrcFrame t) self.
Proof.
  intros self t.
  assert (∀ w, w ∈ df self → length (matches (project t) w) ≤ 1) as H.
  { intros w Hw. vm_compute in Hw.
    repeat (apply elem_of_cons in Hw as [-> | Hw]); try (vm_compute; lia).
    by apply not_elem_of_nil in Hw. }
  split; [exact H|]. exact (table_assignment_idempotent self t H).
Defined.

(** ** What [add_samples] leaves alone *)

(** Whatever it is given, [add_samples] changes no attribute of the object
    but [df] (the [sample_ids] attribute keeps the constructor's argument),
    and every row of the frame afterwards is a row of the frame before in
    all columns but [sample_id]. *)
Theorem add_samples_touches_sample_id_only s self :
  rows (after s self) = rows self ∧
  cols (after s self) = cols self ∧
  plate_name (after s self) = plate_name self ∧
  plate_id (after s self) = plate_id self ∧
  sample_ids (after s self) = sample_ids self ∧
  ∀ w', w' ∈ df (after s self) →
    ∃ w, w ∈ df self ∧
         rec_plate_name w' = rec_plate_name w ∧
         rec_plate_id w' = rec_plate_id w ∧
         well_index w' = well_index w ∧
         row w' = row w ∧
         column w' = column w.
Proof.
  assert (rows (after s self) = rows self ∧ cols (after s self) = cols self ∧
          plate_name (after s self) = plate_name self ∧
          plate_id (after s self) = plate_id self ∧
          sample_ids (after s self) = sample_ids self) as Hattr.
  { unfold after. destruct s as [|d|t|v]; try done.
    by destruct (add_samples_frame_cases t self) as [[-> _]|(e & -> & _)]. }
  destruct Hattr as (? & ? & ? & ? & ?). split_and!; try done.
  intros w' (w & v & Hw & ->)%add_samples_rows. by exists w.
Qed.

(** ** No NaN in the package's plates *)

Lemma base_frame_unset names ids g d w :
  base_frame names ids g = Ok d → w ∈ d → sample_id w = PyNone.
Proof.
  unfold base_frame. case_bool_decide; [|done]. intros [= <-] Hw.
  by apply elem_of_zip_with in Hw as ([pn pid] & [[wi r] c] & -> & _).
Qed.

Lemma base_df_unset rows cols pn pid d w :
  base_df rows cols pn pid = Ok d → w ∈ d → sample_id w = PyNone.
Proof.
  unfold base_df. destruct (well_grid rows cols) as [g|e]; [|done].
  rewrite bind_Ok. apply base_frame_unset.
Qed.

Lemma after_no_nan s self :
  object_source s = true →
  (∀ w, w ∈ df self → sample_id w ≠ NaN) →
  ∀ w, w ∈ df (after s self) → sample_id w ≠ NaN.
Proof.
  intros Hs H w'. unfold after. destruct s as [|d|t|v]; [apply H| | |apply H].
  - simpl. rewrite loc_set_dict. intros (w & -> & Hw)%list_elem_of_fmap.
    unfold assign. destruct (d !! well_index w); [done|by apply H].
  - apply negb_true_iff in Hs.
    destruct (add_samples_frame_cases t self) as [[-> _]|(e & -> & _)];
      [|apply H].
    rewrite Hs. cbn [self_after df set_df].
    intros (w & Hj & Hw)%list_elem_of_bind.
    unfold joined in Hj. destruct (matches (project t) w) as [|r ms].
    + apply list_elem_of_singleton in Hj as ->. rewrite kept_object.
      by apply H.
    + apply list_elem_of_fmap in Hj as (r' & -> & _).
      unfold overwrite. destruct (isna r'.2) eqn:Hna.
      * rewrite kept_object. by apply H.
      * simpl. by destruct r'.2.
Qed.

Lemma add_all_no_nan ss self :
  Forall (λ s, object_source s = true) ss →
  (∀ w, w ∈ df self → sample_id w ≠ NaN) →
  ∀ w, w ∈ df (add_all ss self) → sample_id w ≠ NaN.
Proof.
  intros Hss. revert self.
  induction Hss as [|s ss Hs Hss IH]; intros self H; [done|].
  simpl. apply IH. by apply after_no_nan.
Qed.

(** A plate built by the package's constructor holds no NaN, and no sequence
    of [add_samples] calls puts one in, as long as no data frame among the
    arguments has a [sample_id] column of dtype str: an unset well stays
    [None], which is what [print_matrix] tests for. *)
Theorem package_plates_hold_no_nan rows cols pn pid s out p ss :
  post_init rows cols pn pid s = (out, Ok p) →
  object_source s = true →
  Forall (λ s, object_source s = true) ss →
  ∀ w, w ∈ df (add_all ss p) → sample_id w ≠ NaN.
Proof.
  intros Hp Hs Hss. apply add_all_no_nan; [done|]. revert Hp. unfold post_init.
  destruct (base_df rows cols pn pid) as [d|e] eqn:Hd; [|done].
  destruct (outcome (add_samples s _)) as [[]|e] eqn:Ho; [|done].
  destruct (validate _); simpl; [|done]. intros [= _ <-].
  apply after_no_nan; [done|]. intros w Hw. simpl in Hw.
  by rewrite (base_df_unset _ _ _ _ _ _ Hd Hw).
Qed.

Lemma package_plates_hold_no_nan_witness :
  let s := SrcFrame (table_of [Str (of_string "A1")] [NaN]) in
  let ss := [SrcDict (dict_of [("B1", "S1")]);
             SrcFrame (table_of [Str (of_string "B1"); Str (of_string "A2")]
                                [NaN; PyNone]);
             SrcOther (OInt 3)] in
  post_init 2 2 None None s = ([], Ok (after s (fresh 2 2 None None s
     ((λ p, well_at None None p.1 p.2) <$> column_major 2 2)))) ∧
  object_source s = true ∧
  Forall (λ s, object_source s = true) ss ∧
  ∀ w, w ∈ df (add_all ss (after s (fresh 2 2 None None s
     ((λ p, well_at None None p.1 p.2) <$> column_major 2 2)))) →
       sample_id w ≠ NaN.
Proof.
  intros s ss.
  assert (post_init 2 2 None None s = ([], Ok (after s (fresh 2 2 None None s
     ((λ p, well_at None None p.1 p.2) <$> column_major 2 2))))) as H
    by by vm_compute.
  assert (Forall (λ s, object_source s = true) ss) as Hss
    by (repeat constructor).
  split; [exact H|]. split; [reflexivity|]. split; [exact Hss|].
  exact (package_plates_hold_no_nan 2 2 None None s [] _ ss H eq_refl Hss).
Defined.

(** ** The consistency checks decide uniformity *)

Lemma elem_of_unique_2 {A} `{EqDecision A} (x : A) l : x ∈ l → x ∈ unique l.
Proof.
  induction l as [|y l IH]; simpl; [done|].
  intros [->|Hx]%elem_of_cons; [by left|].
  destruct (decide (x = y)) as [->|Hne]; [by left|].
  right. apply list_elem_of_filter. split; [done|by apply IH].
Qed.

Lemma unique_many {A} `{EqDecision A} (l : list A) :
  1 < length (unique l) ↔ ∃ x y, x ∈ l ∧ y ∈ l ∧ x ≠ y.
Proof.
  split.
  - intros Hlen. destruct (unique l) as [|x [|y k]] eqn:Hu; simpl in Hlen; try lia.
    destruct l as [|a l]; [done|]. simpl in Hu. injection Hu as -> Hf.
    assert (y ∈ filter (λ z, z ≠ x) (unique l)) as Hy by (rewrite Hf; by left).
    apply list_elem_of_filter in Hy as [Hne Hy%elem_of_unique].
    exists x, y. split_and!; [by left|by right|done].
  - intros (x & y & Hx & Hy & Hne).
    apply Nat.lt_nge. intros Hle. apply Hne.
    destruct (unique l) as [|a [|b k]] eqn:Hu; simpl in Hle; [| |lia].
    + apply elem_of_unique_2 in Hx. rewrite Hu in Hx.
      by apply not_elem_of_nil in Hx.
    + apply elem_of_unique_2 in Hx, Hy. rewrite Hu in Hx, Hy.
      apply list_elem_of_singleton in Hx, Hy. congruence.
Qed.

(** The checks that end [__post_init__] are exact: they raise the plate-name
    error precisely when two rows differ in [plate_name], the plate-id error
    precisely when all names agree and two rows differ in [plate_id], and
    pass precisely when all rows agree on both. *)
Theorem validate_decides_uniformity (d : DataFrame) :
  (validate d = Raise name_error ↔
     ∃ w1 w2, w1 ∈ d ∧ w2 ∈ d ∧ rec_plate_name w1 ≠ rec_plate_name w2) ∧
  (validate d = Raise id_error ↔
     (∀ w1 w2, w1 ∈ d → w2 ∈ d → rec_plate_name w1 = rec_plate_name w2) ∧
     ∃ w1 w2, w1 ∈ d ∧ w2 ∈ d ∧ rec_plate_id w1 ≠ rec_plate_id w2) ∧
  (validate d = Ok tt ↔
     ∀ w1 w2, w1 ∈ d → w2 ∈ d →
       rec_plate_name w1 = rec_plate_name w2 ∧
       rec_plate_id w1 = rec_plate_id w2).
Proof.
  assert (∀ (f : WellRecord → option pystr),
            1 < length (unique (f <$> d)) ↔
            ∃ w1 w2, w1 ∈ d ∧ w2 ∈ d ∧ f w1 ≠ f w2) as Hcol.
  { intros f. rewrite unique_many. split.
    - intros (x & y & (w1 & -> & H1)%list_elem_of_fmap
                     & (w2 & -> & H2)%list_elem_of_fmap & Hne).
      by exists w1, w2.
    - intros (w1 & w2 & H1 & H2 & Hne).
      exists (f w1), (f w2). split_and!; [| |done]; by apply list_elem_of_fmap_2. }
  assert (∀ (f : WellRecord → option pystr),
            ¬ (∃ w1 w2, w1 ∈ d ∧ w2 ∈ d ∧ f w1 ≠ f w2) ↔
            ∀ w1 w2, w1 ∈ d → w2 ∈ d → f w1 = f w2) as Hneg.
  { intros f. split.
    - intros Hno w1 w2 H1 H2. destruct (decide (f w1 = f w2)); [done|].
      destruct Hno. by exists w1, w2.
    - intros Hall (w1 & w2 & H1 & H2 & Hne). by apply Hne, Hall. }
  unfold validate, name_error, id_error.
  destruct (bool_decide (1 < length (unique (rec_plate_name <$> d)))) eqn:Hn.
  - apply bool_decide_eq_true_1, Hcol in Hn. split_and!.
    + done.
    + split; [done|]. intros [Hall _]. by apply (Hneg rec_plate_name) in Hall.
    + split; [done|]. intros Hall. apply (Hneg rec_plate_name) in Hn; [done|].
      intros w1 w2 H1 H2. by apply Hall.
  - apply bool_decide_eq_false_1 in Hn. rewrite Hcol, Hneg in Hn.
    destruct (bool_decide (1 < length (unique (rec_plate_id <$> d)))) eqn:Hi.
    + apply bool_decide_eq_true_1, Hcol in Hi. split_and!.
      * split; [done|]. intros Hex. by apply (Hneg rec_plate_name) in Hex.
      * done.
      * split; [done|]. intros Hall. apply (Hneg rec_plate_id) in Hi; [done|].
        intros w1 w2 H1 H2. by apply Hall.
    + apply bool_decide_eq_false_1 in Hi. rewrite Hcol, Hneg in Hi. split_and!.
      * split; [done|]. intros Hex. by apply (Hneg rec_plate_name) in Hex.
      * split; [done|]. intros [_ Hex]. by apply (Hneg rec_plate_id) in Hex.
      * split; [|done]. intros _ w1 w2 H1 H2. split; [by apply Hn|by apply Hi].
Qed.

(** ** When [print_matrix] succeeds *)




(** ** Which well is shown where *)








(** ** Alignment of the grid *)

Lemma length_of_string s : length (of_string s) = String.length s.
Proof. induction s as [|a s IH]; simpl; [done|]. by rewrite IH. Qed.

Lemma length_pretty_N_go k x s :
  (x < 10 ^ N.of_nat k)%N →
  String.length (pretty_N_go x s) ≤ String.length s + k.
Proof.
  revert x s. induction k as [|k IH]; intros x s Hx.
  - assert (x = 0%N) as -> by (simpl in Hx; lia). rewrite pretty_N_go_0. lia.
  - destruct (decide (x = 0%N)) as [->|Hne]; [rewrite pretty_N_go_0; lia|].
    rewrite pretty_N_go_step by lia.
    etrans; [apply IH|simpl; lia].
    rewrite Nat2N.inj_succ, N.pow_succ_r' in Hx.
    apply N.Div0.div_lt_upper_bound. lia.
Qed.

Lemma len_str_int k n :
  0 < k → (N.of_nat n < 10 ^ N.of_nat k)%N → len (str_int n) ≤ k.
Proof.
  intros Hk Hn. unfold len, str_int. rewrite length_of_string.
  unfold pretty, pretty_nat, pretty, pretty_N.
  case_decide; [simpl; lia|].
  etrans; [by apply (length_pretty_N_go k)|]. simpl. lia.
Qed.

Lemma length_join sep parts :
  length (join sep parts)
  = sum_list (length <$> parts) + length sep * (length parts - 1).
Proof.
  induction parts as [|p [|q ps] IH]; [simpl; lia|simpl; lia|].
  change (join sep (p :: q :: ps)) with (p ++ sep ++ join sep (q :: ps)).
  rewrite !length_app, IH. csimpl. lia.
Qed.

Lemma length_join_fields (fields : list pystr) :
  (∀ f, f ∈ fields → length f = 10) →
  3 + length (join (of_string " ") fields) = line_width (length fields).
Proof.
  intros H. rewrite length_join. unfold line_width.
  assert (sum_list (length <$> fields) = 10 * length fields) as ->.
  { induction fields as [|f fs IH]; [done|]. csimpl.
    rewrite (H f) by by left. rewrite IH; [lia|]. intros g Hg. apply H. by right. }
  simpl. lia.
Qed.

Lemma length_fmt_cell x :
  (∀ s, x = Str s → len s ≤ 10) → length (fmt_cell x) = 10.
Proof.
  intros H. destruct x as [| |s]; [done|done|].
  simpl. apply center_short. by apply H.
Qed.

Lemma elem_of_drop_prefix {A} n (l1 l2 : list A) x :
  l1 `prefix_of` l2 → x ∈ drop n l1 → x ∈ drop n l2.
Proof.
  intros [k ->] [i Hi]%list_elem_of_lookup. rewrite lookup_drop in Hi.
  apply list_elem_of_lookup. exists i. rewrite lookup_drop.
  by apply lookup_app_l_Some.
Qed.

(** When every sample identifier has at most ten characters and [cols] has
    at most ten digits, the grid is aligned: the header line and every data
    line that [print_matrix] prints have the same length,
    [3 + 11 * cols - 1] for a plate with columns. *)
Theorem grid_lines_are_aligned self :
  length (df self) = rows self * cols self →
  (N.of_nat (rows self) ≤ max_rows)%N →
  (N.of_nat (cols self) < 10 ^ 10)%N →
  (∀ w s, w ∈ df self → sample_id w = Str s → len s ≤ 10) →
  ∀ line, line ∈ drop 2 (print_matrix self).1 →
    length line = line_width (cols self).
Proof.
  intros Hlen Hb Hc Hs line Hline.
  apply (elem_of_drop_prefix 2 _ _ _ (print_matrix_prefix self)) in Hline.
  unfold grid_lines in Hline. simpl in Hline.
  apply elem_of_cons in Hline as [->|Hline].
  - unfold header_line. rewrite length_app.
    change (length (of_string "   ")) with 3.
    rewrite length_join_fields; [by rewrite length_fmap, length_seq|].
    intros f (i & -> & Hi%elem_of_seq)%list_elem_of_fmap.
    apply center_short, (len_str_int 10); [lia|].
    change (N.of_nat 10) with 10%N. lia.
  - apply list_elem_of_lookup in Hline as [i Hi].
    rewrite list_lookup_imap in Hi.
    destruct (reshape _ _ !! i) as [cells|] eqn:Hcells; [|done].
    injection Hi as <-. unfold data_line.
    change (length (?a :: of_string "  " ++ ?l)) with (3 + length l).
    assert (i < rows self) as Hi.
    { apply lookup_lt_Some in Hcells.
      by rewrite length_reshape, length_replicate in Hcells. }
    rewrite lookup_reshape_replicate in Hcells by done. injection Hcells as <-.
    rewrite length_join_fields.
    + rewrite length_fmap, length_take, length_drop, length_fmap, Hlen.
      f_equal. nia.
    + intros f (x & -> & Hx)%list_elem_of_fmap. apply length_fmt_cell.
      intros s ->. apply subseteq_take, subseteq_drop in Hx.
      apply list_elem_of_fmap in Hx as (w & Hw & Hin). by apply (Hs w).
Qed.

Lemma grid_lines_are_aligned_witness :
  let self := after (SrcDict (dict_of [("A1", "S001"); ("B2", "SAMPLE-002")]))
                    (example_plate 2 3) in
  length (df self) = rows self * cols self ∧
  (N.of_nat (rows self) ≤ max_rows)%N ∧
  (N.of_nat (cols self) < 10 ^ 10)%N ∧
  (∀ w s, w ∈ df self → sample_id w = Str s → len s ≤ 10) ∧
  ∀ line, line ∈ drop 2 (print_matrix self).1 → length line = 35.
Proof.
  intros self.
  assert (length (df self) = rows self * cols self) as H1 by reflexivity.
  assert (N.of_nat (rows self) ≤ max_rows)%N as H2 by (vm_compute; discriminate).
  assert (N.of_nat (cols self) < 10 ^ 10)%N as H3 by (vm_compute; reflexivity).
  assert (∀ w s, w ∈ df self → sample_id w = Str s → len s ≤ 10) as H4.
  { intros w s Hw. vm_compute in Hw.
    repeat (apply elem_of_cons in Hw as [-> | Hw]);
      try (by apply not_elem_of_nil in Hw);
      simpl; intros [= <-] || discriminate; vm_compute; lia. }
  split_and!; [exact H1|exact H2|exact H3|exact H4|].
  exact (grid_lines_are_aligned self H1 H2 H3 H4).
Defined.

(** ** What construction returns *)

Lemma base_df_no_cols rows pn pid : base_df rows 0 pn pid = Ok [].
Proof. unfold base_df, well_grid. simpl. by rewrite Nat.mul_0_r. Qed.

Lemma base_df_succeeds rows cols pn pid :
  (∃ d, base_df rows cols pn pid = Ok d) ↔
  (N.of_nat rows ≤ max_rows)%N ∨ cols = 0.
Proof.
  split.
  - intros [d Hd]. destruct (decide (N.of_nat rows ≤ max_rows)%N); [by left|].
    destruct cols as [|c]; [by right|].
    rewrite base_df_raise in Hd by lia. done.
  - intros [Hb| ->]; [|by rewrite base_df_no_cols; eexists].
    rewrite base_df_ok by done. by eexists.
Qed.





(** ** The single-file constructor *)

Lemma legacy_post_init_filled nrows ncols pn pid s d d' :
  base_df nrows ncols pn pid = Ok d → Legacy.fill_samples s d = Ok d' →
  Legacy.post_init nrows ncols pn pid s = Ok (fresh nrows ncols pn pid s d').
Proof.
  intros Hd Hf. unfold Legacy.post_init. rewrite Hd, bind_Ok, Hf, bind_Ok.
  rewrite (validate_uniform pn pid); [done|].
  eapply fill_samples_uniform; [done|]. intros w Hw. by eapply base_df_uniform.
Qed.


Lemma legacy_fill_frame t d :
  has_column "well_index" t = true → has_column "sample_id" t = true →
  Legacy.fill_samples (SrcFrame t) d =
    if key_mismatch d t then Raise merge_error
    else Ok ((λ '(w, new), set_sample_id new w) <$> merge_left d (project t)).
Proof. intros H1 H2. unfold Legacy.fill_samples. by rewrite H1, H2. Qed.


Lemma elem_of_merge_left (l : DataFrame) right w new :
  (w, new) ∈ merge_left l right → w ∈ l.
Proof.
  unfold merge_left. intros (w0 & Hin & Hw0)%list_elem_of_bind.
  destruct (matches right w0).
  - by apply list_elem_of_singleton in Hin as [= -> _].
  - by apply list_elem_of_fmap in Hin as (? & [= -> _] & _).
Qed.

(** Given [None], a dictionary or a data frame, the two constructors succeed
    or fail together, and when they succeed they build the same frame row
    for row, up to the kind of null in [sample_id]: the single-file variant
    leaves NaN in a well that a dictionary or a data frame does not set,
    the package leaves [None]. *)
Theorem constructors_agree_up_to_null nrows ncols pn pid s :
  (∀ v, s ≠ SrcOther v) →
  match Legacy.post_init nrows ncols pn pid s,
        (post_init nrows ncols pn pid s).2 with
  | Ok p, Ok p' =>
      rows p = rows p' ∧ cols p = cols p' ∧
      plate_name p = plate_name p' ∧ plate_id p = plate_id p' ∧
      Forall2 same_up_to_null (df p) (df p')
  | Raise _, Raise _ => True
  | _, _ => False
  end.
Proof.
  intros Hno. unfold post_init.
  destruct (base_df nrows ncols pn pid) as [d|e] eqn:Hd.
  2: { unfold Legacy.post_init. by rewrite Hd. }
  assert (validate (df (self_after (add_samples s (fresh nrows ncols pn pid s d))))
          = Ok tt) as Hv.
  { apply (validate_uniform pn pid), add_samples_uniform.
    intros w Hw. by eapply base_df_uniform. }
  assert (∀ w, w ∈ d → sample_id w = PyNone) as Hunset
    by (intros w; by apply (base_df_unset nrows ncols pn pid)).
  destruct s as [|m|t|v].
  - simpl in Hv |- *.
    rewrite (legacy_post_init_filled _ _ _ _ SrcNone d _ Hd eq_refl), Hv. simpl.
    split_and!; try done.
    rewrite <- (list_fmap_id d) at 2. apply Forall2_fmap_same.
    intros w Hw. unfold same_up_to_null. simpl. by rewrite (Hunset w Hw).
  - simpl in Hv |- *.
    rewrite (legacy_post_init_filled _ _ _ _ (SrcDict m) d _ Hd eq_refl), Hv. simpl.
    split_and!; try done. rewrite loc_set_dict.
    apply Forall2_fmap_same. intros w Hw. unfold same_up_to_null, assign.
    destruct (m !! well_index w); simpl; [done|]. by rewrite (Hunset w Hw).
  - destruct (has_column "well_index" t) eqn:H1;
      [destruct (has_column "sample_id" t) eqn:H2;
       [destruct (key_mismatch d t) eqn:H3|]|].
    + rewrite add_samples_frame_mismatch by done.
      unfold Legacy.post_init. rewrite Hd, bind_Ok.
      rewrite legacy_fill_frame by done. by rewrite H3.
    + rewrite add_samples_frame in Hv |- * by done.
      cbn [outcome stdout self_after] in Hv |- *.
      rewrite (legacy_post_init_filled _ _ _ _ (SrcFrame t) d
                 ((λ '(w, new), set_sample_id new w)
                    <$> merge_left d (project t)) Hd)
        by (rewrite legacy_fill_frame by done; by rewrite H3).
      rewrite Hv. simpl. split_and!; try done.
      rewrite <- fill_merge. unfold fill_and_drop.
      apply Forall2_fmap_same. intros [w new] Hw%elem_of_merge_left.
      unfold same_up_to_null, fillna, as_dtype. simpl. rewrite (Hunset w Hw).
      by destruct new, (str_samples t).
    + rewrite add_samples_frame_raise by auto.
      unfold Legacy.post_init. rewrite Hd, bind_Ok. simpl. by rewrite H1, H2.
    + rewrite add_samples_frame_raise by auto.
      unfold Legacy.post_init. rewrite Hd, bind_Ok. simpl. by rewrite H1.
  - by destruct (Hno v).
Qed.

Lemma constructors_agree_up_to_null_witness :
  let s := SrcDict (dict_of [("A1", "S1")]) in
  (∀ v, s ≠ SrcOther v) ∧
  match Legacy.post_init 2 2 None None s, (post_init 2 2 None None s).2 with
  | Ok p, Ok p' =>
      rows p = rows p' ∧ cols p = cols p' ∧
      plate_name p = plate_name p' ∧ plate_id p = plate_id p' ∧
      Forall2 same_up_to_null (df p) (df p')
  | Raise _, Raise _ => True
  | _, _ => False
  end.
Proof.
  intros s. assert (∀ v, s ≠ SrcOther v) as H by done.
  split; [exact H|]. exact (constructors_agree_up_to_null 2 2 None None s H).
Defined.



(** ** Samples at construction and afterwards *)

Lemma df_after_fresh s nrows ncols pn pid s1 s2 d :
  df (after s (fresh nrows ncols pn pid s1 d))
  = df (after s (fresh nrows ncols pn pid s2 d)).
Proof.
  unfold after. destruct s as [|m|t|v]; simpl; try done.
  destruct (negb _ || negb _); [done|]. by destruct (key_mismatch d t).
Qed.

(** Passing the samples to the package's constructor builds the frame that
    constructing without samples and then calling [add_samples] builds. *)
Theorem construction_is_assignment_after_construction nrows ncols pn pid s p :
  (post_init nrows ncols pn pid s).2 = Ok p →
  ∃ p0, (post_init nrows ncols pn pid SrcNone).2 = Ok p0 ∧
        outcome (add_samples s p0) = Ok tt ∧
        df (after s p0) = df p.
Proof.
  unfold post_init.
  destruct (base_df nrows ncols pn pid) as [d|e] eqn:Hd; [|done].
  destruct (outcome (add_samples s (fresh nrows ncols pn pid s d)))
    as [[]|e] eqn:Ho; [|done].
  cbn [snd]. destruct (validate _); [|done]. rewrite bind_Ok. intros [= <-].
  exists (fresh nrows ncols pn pid SrcNone d). split_and!.
  - simpl. rewrite (validate_uniform pn pid); [done|].
    intros w Hw. by eapply base_df_uniform.
  - revert Ho. destruct s as [|m|t|v]; simpl; try done.
    destruct (negb _ || negb _); [done|]. by destruct (key_mismatch d t).
  - apply df_after_fresh.
Qed.

Lemma construction_is_assignment_after_construction_witness :
  let s := SrcDict (dict_of [("B1", "S1")]) in
  let p := after s (fresh 2 2 None None s
             ((λ p, well_at None None p.1 p.2) <$> column_major 2 2)) in
  (post_init 2 2 None None s).2 = Ok p ∧
  ∃ p0, (post_init 2 2 None None SrcNone).2 = Ok p0 ∧
        outcome (add_samples s p0) = Ok tt ∧
        df (after s p0) = df p.
Proof.
  intros s p.
  assert ((post_init 2 2 None None s).2 = Ok p) as H by by vm_compute.
  split; [exact H|].
  exact (construction_is_assignment_after_construction 2 2 None None s p H).
Defined.

(** ** Row labels *)

(** On a plate with columns, every row label is a single capital letter A to
    Z, and every well index that letter followed by the column number,
    exactly when there are at most 26 rows: row index 26 is labelled "[". *)
Theorem row_labels_are_letters_up_to_26 nrows ncols pn pid d :
  base_df nrows ncols pn pid = Ok d → 0 < ncols →
  (∀ w, w ∈ d →
     ∃ c, (65 ≤ c ≤ 90)%N ∧ row w = [c] ∧
          well_index w = c :: str_int (column w))
  ↔ nrows ≤ 26.
Proof.
  intros Hd Hc.
  assert (N.of_nat nrows ≤ max_rows)%N as Hb.
  { destruct (proj1 (base_df_succeeds nrows ncols pn pid)) as [?| ->];
      [by exists d|done|lia]. }
  rewrite base_df_ok in Hd by done. injection Hd as <-. split.
  - intros Hall. apply Nat.le_ngt. intros Hgt.
    destruct (Hall (well_at pn pid 1 26)) as (c & Hrange & Hrow & _).
    + apply list_elem_of_fmap. exists (1, 26). split; [done|].
      apply elem_of_column_major. lia.
    + simpl in Hrow. injection Hrow as <-. lia.
  - intros Hle w ([col r] & -> & Hin)%list_elem_of_fmap.
    apply elem_of_column_major in Hin. simpl.
    exists (65 + N.of_nat r)%N. split_and!; [lia|lia|done|done].
Qed.

Lemma row_labels_are_letters_up_to_26_witness :
  base_df 27 1 None None
    = Ok ((λ p, well_at None None p.1 p.2) <$> column_major 27 1) ∧
  0 < 1 ∧
  ¬ ∀ w, w ∈ (λ p, well_at None None p.1 p.2) <$> column_major 27 1 →
      ∃ c, (65 ≤ c ≤ 90)%N ∧ row w = [c] ∧
           well_index w = c :: str_int (column w).
Proof.
  assert (base_df 27 1 None None
    = Ok ((λ p, well_at None None p.1 p.2) <$> column_major 27 1)) as H
    by by vm_compute.
  assert (0 < 1) as H1 by lia.
  split_and!; [exact H|exact H1|]. intros Hall.
  apply (row_labels_are_letters_up_to_26 27 1 None None _ H H1) in Hall. lia.
Defined.

(** ** Plates without wells *)

Lemma column_major_empty nrows ncols :
  nrows = 0 ∨ ncols = 0 → column_major nrows ncols = [].
Proof.
  intros H. apply length_zero_iff_nil. rewrite length_column_major.
  destruct H as [-> | ->]; lia.
Qed.

(** With zero rows or zero columns the constructor builds an empty frame,
    whatever the other dimension.  When there are at most 55231 rows and the
    plate name and identifier can be encoded, [print_matrix] still prints
    the two plate lines, the header for [cols] columns and one line per row
    that holds the row letter and two blanks. *)
Theorem plate_without_wells nrows ncols pn pid s :
  nrows = 0 ∨ ncols = 0 →
  base_df nrows ncols pn pid = Ok [] ∧
  ((N.of_nat nrows ≤ max_printable_rows)%N →
   encodable (show_opt pn) = true → encodable (show_opt pid) = true →
   print_matrix (fresh nrows ncols pn pid s []) =
     ([of_string "Plate Name: " ++ show_opt pn;
       of_string "Plate ID: " ++ show_opt pid;
       header_line ncols]
      ++ ((λ i, [(65 + N.of_nat i)%N; 32%N; 32%N]) <$> seq 0 nrows), Ok tt)).
Proof.
  intros H. split.
  - destruct H as [-> | ->]; [|apply base_df_no_cols].
    rewrite base_df_ok by (unfold max_rows; lia).
    by rewrite column_major_empty by by left.
  - intros Hb Hn Hi. rewrite print_matrix_ok;
      [|simpl; destruct H as [-> | ->]; lia|done|done|done
       |intros w Hw; by apply not_elem_of_nil in Hw].
    unfold grid_lines. simpl. do 5 f_equal. apply list_eq. intros i.
    rewrite list_lookup_imap, list_lookup_fmap.
    destruct (decide (i < nrows)) as [Hlt|Hge].
    + rewrite lookup_reshape_replicate, lookup_seq_lt by done. simpl.
      by rewrite drop_nil, take_nil.
    + rewrite lookup_ge_None_2, lookup_seq_ge by
        (rewrite ?length_reshape, ?length_replicate; lia). done.
Qed.

Lemma plate_without_wells_witness :
  (3 = 0 ∨ 0 = 0) ∧
  base_df 3 0 None None = Ok [] ∧
  (N.of_nat 3 ≤ max_printable_rows)%N ∧
  encodable (show_opt None) = true ∧
  print_matrix (fresh 3 0 None None SrcNone []) =
    ([of_string "Plate Name: None"; of_string "Plate ID: None";
      of_string "   "; of_string "A  "; of_string "B  "; of_string "C  "],
     Ok tt).
Proof.
  assert (3 = 0 ∨ 0 = 0) as H by (by right).
  assert (N.of_nat 3 ≤ max_printable_rows)%N as Hb
    by (vm_compute; discriminate).
  destruct (plate_without_wells 3 0 None None SrcNone H) as [Hd Hp].
  split_and!; [exact H|exact Hd|exact Hb|reflexivity|].
  exact (Hp Hb eq_refl eq_refl).
Defined.
